(** * tripadvisor-scraper: the crawl orchestration of [main.py]

    A shallow embedding of [parse_search_page], [scrape_restaurant_details]
    and [scrape_search], and the properties of the pagination plan, of the
    page crawl and of the detail enrichment.

    Conventions.
    - Python [str] is [string]; the models of the string built-ins below
      follow CPython on ASCII text (a byte above 127 is an ordinary
      character: neither white space nor a digit).
    - Python [int] is [Z].
    - [int / int] is Python's true division: the exact quotient rounded to
      the nearest binary64 value, ties to even.
    - An exception is a value of [exn]; code that can raise returns
      [result]. [assert] statements are executed (no [-O]).
    - The HTTP client ([snippet1.client]), [urllib.parse.urljoin] and the
      time each request takes are parameters of the model. [urljoin] is
      taken where it returns: the [ValueError] it raises on a reference
      with a malformed authority is not modelled.
    - A response carries, next to its status and URL, the nodes its CSS
      selectors extract ([Document]): the HTML parser itself is not
      modelled. *)

From Stdlib Require Import ZArith List String Ascii Lia Bool Permutation.
From Stdlib Require Import Decimal DecimalString DecimalZ.
From Stdlib Require Import Floats.SpecFloat.
Import ListNotations.

Local Open Scope Z_scope.

(** ** Python built-ins used by the scraper *)

Module Py.

(** The exceptions that can leave [scrape_search]. [TransportError] stands
    for whatever [client.get] raises when no response arrives. *)
Inductive exn : Type :=
| AssertionError (msg : string)
| ValueError
| IndexError
| ZeroDivisionError
| OverflowError
| TransportError.

Inductive result (A : Type) : Type :=
| Ok (a : A)
| Raise (e : exn).
Arguments Ok {A} a.
Arguments Raise {A} e.

Definition is_empty (s : string) : bool :=
  match s with EmptyString => true | String _ _ => false end.

(** [bool(s)] for a string. *)
Definition truthy (s : string) : bool := negb (is_empty s).

(** [c.isspace()] on ASCII: TAB, LF, VT, FF, CR, FS, GS, RS, US, SPACE. *)
Definition isspace (c : ascii) : bool :=
  let n := Z.of_N (N_of_ascii c) in
  ((9 <=? n) && (n <=? 13)) || ((28 <=? n) && (n <=? 32)).

Definition isdigit (c : ascii) : bool :=
  let n := Z.of_N (N_of_ascii c) in (48 <=? n) && (n <=? 57).

Definition digit_value (c : ascii) : Z := Z.of_N (N_of_ascii c) - 48.

Fixpoint lstrip (s : string) : string :=
  match s with
  | EmptyString => EmptyString
  | String c s' => if isspace c then lstrip s' else s
  end.

Fixpoint rstrip (s : string) : string :=
  match s with
  | EmptyString => EmptyString
  | String c s' =>
      match rstrip s' with
      | EmptyString => if isspace c then EmptyString else String c EmptyString
      | r => String c r
      end
  end.

(** [s.strip()] *)
Definition strip (s : string) : string := rstrip (lstrip s).

(** [s.split()]: the maximal runs of characters that are not white space.
    [tok] is the run being read. *)
Fixpoint split_aux (tok s : string) : list string :=
  match s with
  | EmptyString => if is_empty tok then [] else [tok]
  | String c s' =>
      if isspace c
      then (if is_empty tok then split_aux EmptyString s'
            else tok :: split_aux EmptyString s')
      else split_aux (tok ++ String c EmptyString) s'
  end.

Definition split (s : string) : list string := split_aux EmptyString s.

(** [l[0]] *)
Definition first {A} (l : list A) : result A :=
  match l with
  | [] => Raise IndexError
  | x :: _ => Ok x
  end.

(** [s.replace(old, new)]: every occurrence of [old], found from the left
    and not overlapping, becomes [new]. [skip] counts the characters of the
    occurrence just replaced that are still to be passed over. With an
    empty [old], [new] goes before every character and at the end. *)
Fixpoint replace_aux (old new : string) (skip : nat) (s : string) : string :=
  match s with
  | EmptyString => EmptyString
  | String c s' =>
      match skip with
      | S k => replace_aux old new k s'
      | O =>
          if String.prefix old s
          then new ++ replace_aux old new (Nat.pred (String.length old)) s'
          else String c (replace_aux old new O s')
      end
  end.

Fixpoint intersperse (new s : string) : string :=
  match s with
  | EmptyString => new
  | String c s' => new ++ String c (intersperse new s')
  end.

Definition replace (s old new : string) : string :=
  if is_empty old then intersperse new s else replace_aux old new O s.

(** [str(n)] and the [{n}] of an f-string, for an [int]. *)
Definition str (n : Z) : string := NilZero.string_of_int (Z.to_int n).

(** The digits of [int(s)] after the first one: digits, single underscores
    between them. [us] says that the last character read was an
    underscore. *)
Fixpoint int_digits (acc : Z) (us : bool) (s : string) : option Z :=
  match s with
  | EmptyString => if us then None else Some acc
  | String c s' =>
      if isdigit c then int_digits (10 * acc + digit_value c) false s'
      else if Ascii.eqb c "_"%char
           then (if us then None else int_digits acc true s')
           else None
  end.

Definition int_unsigned (s : string) : option Z :=
  match s with
  | EmptyString => None
  | String c s' => if isdigit c then int_digits (digit_value c) false s' else None
  end.

(** The number of decimal digits in [s]. *)
Fixpoint count_digits (s : string) : Z :=
  match s with
  | EmptyString => 0
  | String c s' => (if isdigit c then 1 else 0) + count_digits s'
  end.

(** [sys.int_max_str_digits], as CPython sets it by default since 3.11. *)
Definition int_max_str_digits : Z := 4300.

(** [int(s)] in base 10: white space around, an optional sign, digits.
    Anything else is a [ValueError], and so is a literal of more than
    [int_max_str_digits] digits (leading zeros count; sign, underscores and
    white space do not). *)
Definition int (s : string) : result Z :=
  let body := strip s in
  let parsed :=
    match body with
    | String "-"%char s' => option_map Z.opp (int_unsigned s')
    | String "+"%char s' => int_unsigned s'
    | _ => int_unsigned body
    end in
  match parsed with
  | Some n =>
      if int_max_str_digits <? count_digits body then Raise ValueError else Ok n
  | None => Raise ValueError
  end.

(** [range(lo, hi)] *)
Definition range (lo hi : Z) : list Z :=
  map (fun k => lo + Z.of_nat k) (seq 0 (Z.to_nat (hi - lo))).

(** [re.search(r'bubble_(\d+)', s)]: group 1 of the leftmost match, the
    longest run of digits after the leftmost [bubble_] that a digit
    follows. *)
Fixpoint drop (n : nat) (s : string) : string :=
  match n, s with
  | O, _ => s
  | S _, EmptyString => EmptyString
  | S k, String _ s' => drop k s'
  end.

Fixpoint take_digits (s : string) : string :=
  match s with
  | EmptyString => EmptyString
  | String c s' => if isdigit c then String c (take_digits s') else EmptyString
  end.

Definition bubble_at (s : string) : option string :=
  if String.prefix "bubble_" s
  then (let d := take_digits (drop 7 s) in if is_empty d then None else Some d)
  else None.

Fixpoint search_bubble (s : string) : option string :=
  match bubble_at s with
  | Some d => Some d
  | None =>
      match s with
      | EmptyString => None
      | String _ s' => search_bubble s'
      end
  end.

(** ** binary64 arithmetic: [int / int] and [math.ceil] *)

(** A finite binary64 value, [fmant * 2 ^ fexp]. *)
Record float : Type := mkfloat { fmant : Z; fexp : Z }.

(** The integer nearest to [n / d], ties to the even one ([0 <= n], [0 < d]). *)
Definition round_half_even (n d : Z) : Z :=
  let q := n / d in
  let r := n mod d in
  if 2 * r <? d then q
  else if d <? 2 * r then q + 1
  else if Z.even q then q else q + 1.

(** [a / (b * 2 ^ e)] as a fraction of integers. *)
Definition scaled (a b e : Z) : Z * Z :=
  if 0 <=? e then (a, b * 2 ^ e) else (a * 2 ^ (- e), b).

(** The exponent [e] of the binary64 format for the quotient [a / b]
    ([0 < a], [0 < b]): [2^52 <= a / (b * 2^e) < 2^53], and [-1074] in the
    subnormal range. *)
Definition div_exponent (a b : Z) : Z :=
  let e0 := Z.log2 a - Z.log2 b - 53 in
  let '(n, d) := scaled a b e0 in
  Z.max (if n / d <? 2 ^ 53 then e0 else e0 + 1) (-1074).

(** [a / b] for [0 < a] and [0 < b], rounded to nearest, ties to even. *)
Definition div_pos (a b : Z) : float :=
  let e := div_exponent a b in
  let '(n, d) := scaled a b e in
  mkfloat (round_half_even n d) e.

(** [a / b] on [int]s: [ZeroDivisionError] when [b] is zero,
    [OverflowError] when the rounded quotient does not fit binary64. *)
Definition true_div (a b : Z) : result float :=
  if b =? 0 then Raise ZeroDivisionError
  else if a =? 0 then Ok (mkfloat 0 0)
  else
    let f := div_pos (Z.abs a) (Z.abs b) in
    if 1024 <=? Z.log2 (fmant f) + fexp f then Raise OverflowError
    else Ok (mkfloat (Z.sgn a * Z.sgn b * fmant f) (fexp f)).

(** [math.ceil(x)] *)
Definition ceil (x : float) : Z :=
  if 0 <=? fexp x then fmant x * 2 ^ fexp x
  else - ((- fmant x) / 2 ^ (- fexp x)).

(** The same value in the Standard Library's IEEE 754 model. *)
Definition to_spec_float (x : float) : spec_float :=
  match fmant x with
  | Z0 => S754_zero false
  | Zpos m => S754_finite false m (fexp x)
  | Zneg m => S754_finite true m (fexp x)
  end.

(** The integer [n] as an operand of [SFdiv]. *)
Definition spec_of_int (n : Z) : spec_float :=
  match n with
  | Z0 => S754_zero false
  | Zpos m => S754_finite false m 0
  | Zneg m => S754_finite true m 0
  end.

End Py.

Import Py.

(** ** Data *)

(** [class Preview(TypedDict)]. The class declares [rating] as [str], but
    [scrape_search] stores there whatever [re_first] returned, and that is
    Python's [None] when the pattern matched nothing: [rating] is [Some s]
    for the string [s] and [None] for [None]. *)
Record Preview : Type := mkPreview {
  url : string;
  name : string;
  numberOfReviews : string;
  rating : option string;
  address : string
}.

(** What the selectors of [parse_search_page] see in one [div.listing]:
    the first [a.property_title::text] node and the first
    [a.property_title::attr(href)], when there is one. *)
Record Listing : Type := mkListing {
  title : option string;
  href : option string
}.

(** What the selectors of the scraper see in a page. *)
Record Document : Type := mkDocument {
  (** [css("div.listing")] *)
  listings : list Listing;
  (** [css("span.results_count::text").get()] *)
  results_count : option string;
  (** [css('a[aria-label="Next page"]::attr(href)').get()] *)
  next_page : option string;
  (** [css("span.address::text").get()] *)
  address_text : option string;
  (** [css("span.review_count::text").get()] *)
  review_count_text : option string;
  (** [css("span.ui_bubble_rating::attr(class)")], every match *)
  bubble_classes : list string
}.

(** A response of the client. [doc] serves [Selector(response.text)] as
    well as [response.selector]. *)
Record Response : Type := mkResponse {
  status_code : Z;
  response_url : string;
  doc : Document
}.

(** [SelectorList.get(default=d)] *)
Definition get_default (d : string) (o : option string) : string :=
  match o with Some s => s | None => d end.

(** [SelectorList.re_first(r'bubble_(\d+)')], without a default: the first
    match in the first node that has one, [None] when no node has. *)
Fixpoint re_first_bubble (nodes : list string) : option string :=
  match nodes with
  | [] => None
  | n :: rest =>
      match search_bubble n with
      | Some d => Some d
      | None => re_first_bubble rest
      end
  end.

(** ** Effects: requests and exceptions *)

(** A computation reads and extends the log of the URLs requested so far,
    and returns a value or raises. *)
Definition M (A : Type) : Type := list string -> result A * list string.

Definition ret {A} (a : A) : M A := fun log => (Ok a, log).

Definition raise {A} (e : exn) : M A := fun log => (Raise e, log).

Definition bind {A B} (c : M A) (k : A -> M B) : M B :=
  fun log =>
    match c log with
    | (Ok a, log') => k a log'
    | (Raise e, log') => (Raise e, log')
    end.

Definition lift {A} (r : result A) : M A := fun log => (r, log).

Notation "x <- c ;; k" := (bind c (fun x => k))
  (at level 61, c at next level, right associativity).
Notation "c ;; k" := (bind c (fun _ => k))
  (at level 61, right associativity).

(** [assert cond, msg] *)
Definition assert (cond : bool) (msg : string) : M unit :=
  if cond then ret tt else raise (AssertionError msg).

(** ** The scraper *)

(** What the scraper runs against. *)
Class World : Type := {
  (** [urllib.parse.urljoin] *)
  urljoin : string -> string -> string;
  (** The site as the client sees it: the response to a GET of a URL,
      [None] when the request ends in a transport error. *)
  site : string -> option Response;
  (** The time the response to a GET of a URL takes to arrive. *)
  latency : string -> nat
}.

Section Scraper.

Context {W : World}.

(** [await client.get(url, headers=headers)] *)
Definition client_get (u : string) : M Response :=
  fun log =>
    (match site u with Some r => Ok r | None => Raise TransportError end,
     log ++ [u]).

(** [parse_search_page], lines 25-45. *)
Definition parse_listing (base : string) (box : Listing) : Preview :=
  let title := strip (get_default "" (title box)) in
  let url := get_default "" (href box) in
  {| url := urljoin base url;
     name := title;
     numberOfReviews := "";
     rating := Some ""%string;
     address := "" |}.

Definition parse_search_page (response : Response) : list Preview :=
  map (parse_listing (response_url response)) (listings (doc response)).

(** [scrape_restaurant_details], lines 47-60; [restaurant_fields] is its
    lines 53-60. *)
Definition restaurant_fields (response : Response)
  : string * option string * string :=
  let selector := doc response in
  let address := strip (get_default "" (address_text selector)) in
  let number_of_reviews := strip (get_default "" (review_count_text selector)) in
  let rating := re_first_bubble (bubble_classes selector) in
  (number_of_reviews, rating, address).

Definition scrape_restaurant_details (restaurant_url : string)
  : M (string * option string * string) :=
  response <- client_get restaurant_url ;;
  assert (status_code response =? 200) "Failed to retrieve restaurant page" ;;
  ret (restaurant_fields response).

(** Line 77: [int(text.split()[0].replace(",", "")) if text else 0]. *)
Definition parse_total_results (total_results_text : string) : result Z :=
  if truthy total_results_text then
    match first (split total_results_text) with
    | Ok tok => int (replace tok "," "")
    | Raise e => Raise e
    end
  else Ok 0.

(** Lines 78-79: the next-page link, made absolute. *)
Definition resolve_next_page (url : string) (next_page_url : option string)
  : option string :=
  match next_page_url with
  | Some h => if truthy h then Some (urljoin url h) else None
  | None => None
  end.

(** Line 80: [int(math.ceil(total_results / page_size)) if total_results else 1]. *)
Definition compute_total_pages (total_results page_size : Z) : result Z :=
  if total_results =? 0 then Ok 1
  else
    match true_div total_results page_size with
    | Ok x => Ok (ceil x)
    | Raise e => Raise e
    end.

(** Lines 83-85: [if max_pages and total_pages > max_pages: total_pages = max_pages]. *)
Definition clamp_total_pages (max_pages : option Z) (total_pages : Z) : Z :=
  match max_pages with
  | Some m => if negb (m =? 0) && (m <? total_pages) then m else total_pages
  | None => total_pages
  end.

(** Lines 90-93: the URLs of the pages after the first. *)
Definition other_page_urls (next_page_url : option string)
  (page_size total_pages : Z) : list string :=
  match next_page_url with
  | Some next =>
      if truthy next then
        map (fun i => replace next ("oa" ++ str page_size) ("oa" ++ str (page_size * i)))
            (range 1 total_pages)
      else []
  | None => []
  end.

(** [asyncio.as_completed]: the requests started together, in the order in
    which they complete. Among requests that take the same time asyncio
    fixes no order; the model takes that of the plan, and the statements
    about the crawl hold up to the order of the pages. *)
Fixpoint insert_completed (u : string) (done : list string) : list string :=
  match done with
  | [] => [u]
  | v :: rest =>
      if (latency u <=? latency v)%nat then u :: done
      else v :: insert_completed u rest
  end.

Definition as_completed (urls : list string) : list string :=
  fold_right insert_completed [] urls.

(** Lines 96-98: every request of [to_scrape] is started; the responses
    are parsed and appended to [results] in the order of completion. The
    first request that ended in an error raises at its [await]. *)
Fixpoint extend_completed (results : list Preview) (completed : list string)
  : result (list Preview) :=
  match completed with
  | [] => Ok results
  | u :: rest =>
      match site u with
      | Some response => extend_completed (results ++ parse_search_page response) rest
      | None => Raise TransportError
      end
  end.

Definition scrape_other_pages (results : list Preview) (urls : list string)
  : M (list Preview) :=
  fun log => (extend_completed results (as_completed urls), log ++ urls).

(** Lines 101-105: the details of every preview, one after the other. *)
Definition set_details (result : Preview) (d : string * option string * string)
  : Preview :=
  let '(number_of_reviews, rating, address) := d in
  {| url := url result;
     name := name result;
     numberOfReviews := number_of_reviews;
     rating := rating;
     address := address |}.

Fixpoint scrape_details (results : list Preview) : M (list Preview) :=
  match results with
  | [] => ret []
  | result :: rest =>
      d <- scrape_restaurant_details (url result) ;;
      rest' <- scrape_details rest ;;
      ret (set_details result d :: rest')
  end.

(** [scrape_search], lines 62-107. *)
Definition scrape_search (url : string) (max_pages : option Z) : M (list Preview) :=
  first_page <- client_get url ;;
  assert (status_code first_page =? 200) "Scraper is being blocked" ;;
  let results := parse_search_page first_page in
  match results with
  | [] => ret []
  | _ :: _ =>
      let page_size := Z.of_nat (List.length results) in
      let total_results_text := get_default "" (results_count (doc first_page)) in
      total_results <- lift (parse_total_results total_results_text) ;;
      let next_page_url := resolve_next_page url (next_page (doc first_page)) in
      total_pages <- lift (compute_total_pages total_results page_size) ;;
      let total_pages := clamp_total_pages max_pages total_pages in
      let other_page_urls := other_page_urls next_page_url page_size total_pages in
      results <- scrape_other_pages results other_page_urls ;;
      scrape_details results
  end.

(** *** Vocabulary of the statements *)

(** The detail page of a preview answers with status 200. *)
Definition detail_ok (p : Preview) : Prop :=
  exists r, site (url p) = Some r /\ status_code r = 200.

(** A preview with the fields of its detail page. *)
Definition enriched (p : Preview) : Preview :=
  match site (url p) with
  | Some r => set_details p (restaurant_fields r)
  | None => p
  end.

(** The crawl of [scrape_search url max_pages] (lines 64-98), started with
    the log [log], reaches the enrichment with the previews [results] and
    the log [log']. *)
Definition crawl_gives (url : string) (max_pages : option Z) (log : list string)
  (results : list Preview) (log' : list string) : Prop :=
  exists first_page total_results total_pages,
    site url = Some first_page
    /\ status_code first_page = 200
    /\ parse_search_page first_page <> []
    /\ parse_total_results (get_default "" (results_count (doc first_page)))
       = Ok total_results
    /\ compute_total_pages total_results
         (Z.of_nat (List.length (parse_search_page first_page)))
       = Ok total_pages
    /\ scrape_other_pages (parse_search_page first_page)
         (other_page_urls (resolve_next_page url (next_page (doc first_page)))
            (Z.of_nat (List.length (parse_search_page first_page)))
            (clamp_total_pages max_pages total_pages))
         (log ++ [url])
       = (Ok results, log').

(** The previews in the response to a GET of [u], whatever its status. *)
Definition page_previews (u : string) : list Preview :=
  match site u with
  | Some r => parse_search_page r
  | None => []
  end.

End Scraper.

Arguments client_get {W} u log /.

(** ** A mock site *)

Module Mock.

(** [urljoin] on references that are absolute URLs already: the reference
    itself. Every [href] of the mock site is absolute. *)
Definition join_absolute (base ref : string) : string := ref.

Definition page (status : Z) (u : string) (d : Document) : option Response :=
  Some {| status_code := status; response_url := u; doc := d |}.

Definition empty_document : Document :=
  {| listings := []; results_count := None; next_page := None;
     address_text := None; review_count_text := None; bubble_classes := [] |}.

(** A search page: its listing boxes, results label and next-page link. *)
Definition search_document (boxes : list Listing) (count next : option string)
  : Document :=
  {| listings := boxes; results_count := count; next_page := next;
     address_text := None; review_count_text := None; bubble_classes := [] |}.

(** A restaurant page. *)
Definition detail_document (addr reviews : option string) (classes : list string)
  : Document :=
  {| listings := []; results_count := None; next_page := None;
     address_text := addr; review_count_text := reviews;
     bubble_classes := classes |}.

Definition box (t h : string) : Listing := {| title := Some t; href := Some h |}.

(** A preview as [parse_search_page] makes it. *)
Definition preview (u n : string) : Preview :=
  {| url := u; name := n; numberOfReviews := ""; rating := Some ""%string;
     address := "" |}.

(** The site: a table from URL to reply; a URL that is not in the table
    does not answer (transport error). *)
Fixpoint lookup (table : list (string * option Response)) (u : string)
  : option Response :=
  match table with
  | [] => None
  | (k, r) :: rest => if String.eqb k u then r else lookup rest u
  end.

Definition restaurants : list (string * option Response) :=
  [ ("http://t/a", page 200 "http://t/a"
       (detail_document (Some " 1 rue A ") (Some "12 reviews")
          ["ui_bubble_rating bubble_45"]));
    ("http://t/b", page 200 "http://t/b"
       (detail_document (Some "2 rue B") (Some "7 reviews") ["ui_bubble_rating"]));
    ("http://t/c", page 503 "http://t/c" empty_document);
    ("http://t/d", page 200 "http://t/d"
       (detail_document (Some "4 rue D") None ["ui_bubble_rating bubble_30"])) ]%string.

Fixpoint zeros (n : nat) : string :=
  match n with
  | O => EmptyString
  | S k => String "0" (zeros k)
  end.

(** The label of a page that counts [10^400] results. *)
Definition huge_label : string := "1" ++ zeros 400 ++ " results".

Definition searches : list (string * option Response) :=
  [ (* blocked *)
    ("http://t/blocked", page 503 "http://t/blocked" empty_document);
    (* no result *)
    ("http://t/none", page 200 "http://t/none" empty_document);
    (* one page, its second restaurant has no rating bubble *)
    ("http://t/ab", page 200 "http://t/ab"
       (search_document [box " A " "http://t/a"; box "B" "http://t/b"] None None));
    (* one page, the detail page of its second restaurant answers 503 *)
    ("http://t/acd", page 200 "http://t/acd"
       (search_document [box "A" "http://t/a"; box "C" "http://t/c"; box "D" "http://t/d"]
          None None));
    (* a results label that is not a number *)
    ("http://t/label", page 200 "http://t/label"
       (search_document [box "A" "http://t/a"] (Some "about 40 results") None));
    (* three pages of one restaurant; the second answers 404 with a listing
       in its body *)
    ("http://t/p", page 200 "http://t/p"
       (search_document [box "A" "http://t/a"] (Some "3 results")
          (Some "http://t/p-oa1")));
    ("http://t/p-oa1", page 404 "http://t/p-oa1"
       (search_document [box "D" "http://t/d"] None None));
    ("http://t/p-oa2", page 200 "http://t/p-oa2"
       (search_document [box "A" "http://t/a"] None None));
    (* five pages of one restaurant, of which only the first two answer *)
    ("http://t/five", page 200 "http://t/five"
       (search_document [box "A" "http://t/a"] (Some "5 results")
          (Some "http://t/five-oa1")));
    ("http://t/five-oa1", page 200 "http://t/five-oa1"
       (search_document [box "D" "http://t/d"] None None));
    (* more results than binary64 can hold *)
    ("http://t/huge", page 200 "http://t/huge"
       (search_document [box "A" "http://t/a"] (Some huge_label)
          (Some "http://t/huge-oa1")));
    (* two pages; the request of the second fails in transport *)
    ("http://t/q", page 200 "http://t/q"
       (search_document [box "A" "http://t/a"] (Some "2 results")
          (Some "http://t/q-oa1")));
    ("http://t/q-oa1", None);
    (* three pages of two restaurants, linked with an offset of 30 *)
    ("http://t/s", page 200 "http://t/s"
       (search_document [box "A" "http://t/a"; box "B" "http://t/b"]
          (Some "6 results") (Some "http://t/s-oa30")));
    ("http://t/s-oa30", page 200 "http://t/s-oa30"
       (search_document [box "D" "http://t/d"] None None)) ]%string.

(** The third page of [http://t/p] answers before the second. *)
Definition delay (u : string) : nat :=
  if String.eqb u "http://t/p-oa2" then 1%nat else 2%nat.

Definition world : World :=
  {| urljoin := join_absolute;
     site := lookup (restaurants ++ searches);
     latency := delay |}.

Definition scrape_search := scrape_search (W := world).

Definition scrape_details := scrape_details (W := world).

End Mock.

(** ** The pagination plan as the specification words it *)

(** [ceil(T / P)] on exact integers when both are positive, otherwise 1. *)
Definition spec_total_pages (total_results page_size : Z) : Z :=
  if (0 <? page_size) && (0 <? total_results)
  then - ((- total_results) / page_size)
  else 1.

(** ** Vocabulary of the string facts *)

(** Every character is a decimal digit. *)
Fixpoint all_digits (s : string) : bool :=
  match s with
  | EmptyString => true
  | String c s' => isdigit c && all_digits s'
  end.

(** No character is white space. *)
Fixpoint no_space (s : string) : bool :=
  match s with
  | EmptyString => true
  | String c s' => negb (isspace c) && no_space s'
  end.

(** The first character is white space. *)
Definition leading_space (s : string) : bool :=
  match s with
  | EmptyString => false
  | String c _ => isspace c
  end.

(** The last character is white space. *)
Fixpoint trailing_space (s : string) : bool :=
  match s with
  | EmptyString => false
  | String c EmptyString => isspace c
  | String _ s' => trailing_space s'
  end.

(** Neither the first nor the last character is white space. *)
Definition trimmed (s : string) : bool :=
  negb (leading_space s) && negb (trailing_space s).

(** The string without its commas. *)
Fixpoint drop_commas (s : string) : string :=
  match s with
  | EmptyString => EmptyString
  | String c s' =>
      if Ascii.eqb c ","%char then drop_commas s' else String c (drop_commas s')
  end.

(** [old] occurs nowhere in [s]. *)
Fixpoint absent (old s : string) : bool :=
  negb (String.prefix old s)
  && match s with
     | EmptyString => true
     | String _ s' => absent old s'
     end.

(** Every character is white space. *)
Fixpoint all_space (s : string) : bool :=
  match s with
  | EmptyString => true
  | String c s' => isspace c && all_space s'
  end.


(** * Properties *)

(** ** binary64: when the ceiling of the rounded quotient is exact *)

Lemma round_half_even_bounds n d :
  0 <= n -> 0 < d ->
  n / d <= round_half_even n d <= n / d + 1
  /\ (n mod d = 0 -> round_half_even n d = n / d)
  /\ (d < 2 * (n mod d) -> round_half_even n d = n / d + 1).
Proof.
  intros Hn Hd. unfold round_half_even.
  pose proof (Z.mod_pos_bound n d Hd) as Hr.
  destruct (Z.ltb_spec (2 * (n mod d)) d) as [H1 | H1].
  - repeat split; lia.
  - destruct (Z.ltb_spec d (2 * (n mod d))) as [H2 | H2].
    + repeat split; lia.
    + destruct (Z.even (n / d)); repeat split; lia.
Qed.

(** Rounding the quotient to a grid of step [1 / K] that is finer than
    [2 / P] keeps its ceiling. *)
Lemma ceil_of_rounded T P K :
  0 < T -> 0 < P -> 0 < K -> P < 2 * K ->
  - ((- round_half_even (T * K) P) / K) = - ((- T) / P).
Proof.
  intros HT HP HK HPK.
  destruct (round_half_even_bounds (T * K) P ltac:(nia) HP) as (Hb & Hexact & Hup).
  set (m := round_half_even (T * K) P) in *.
  pose proof (Z.div_mod (T * K) P ltac:(lia)) as Hn.
  pose proof (Z.mod_pos_bound (T * K) P HP) as Hr.
  set (q := T * K / P) in *. set (r := (T * K) mod P) in *.
  pose proof (Z.div_mod (- T) P ltac:(lia)) as Hc.
  pose proof (Z.mod_pos_bound (- T) P HP) as Hcr.
  set (c := (- T) / P) in *. set (s := (- T) mod P) in *.
  (* T = (-c) * P - s, 0 <= s < P *)
  assert (Hm : (- c - 1) * K < m <= - c * K).
  { split.
    - (* m > (-c-1) K *)
      assert (Hq : (- c - 1) * K <= q) by nia.
      destruct (Z.eq_dec q ((- c - 1) * K)) as [E | NE]; [| lia].
      assert (Hr2 : P < 2 * r) by nia.
      rewrite (Hup Hr2). lia.
    - assert (Hq : q <= - c * K) by nia.
      destruct (Z.eq_dec q (- c * K)) as [E | NE]; [| lia].
      assert (Hr0 : r = 0) by nia.
      rewrite (Hexact Hr0). lia. }
  pose proof (Z.div_mod (- m) K ltac:(lia)) as Hx.
  pose proof (Z.mod_pos_bound (- m) K HK) as Hxr.
  nia.
Qed.

Lemma round_half_even_le n d :
  0 <= n -> 0 < d -> 0 <= round_half_even n d <= n + 1.
Proof.
  intros Hn Hd.
  destruct (round_half_even_bounds n d Hn Hd) as (Hb & _ & _).
  pose proof (Z.div_pos n d Hn Hd).
  assert (n / d <= n) by (apply Z.div_le_upper_bound; nia).
  lia.
Qed.

(** For a numerator below [2^53], the exponent of the quotient is at most
    [- log2 P]: the grid of the format is finer than [1 / P]. *)
Lemma div_exponent_small T P :
  0 < T < 2 ^ 53 -> 0 < P < 2 ^ 1074 ->
  -1074 <= div_exponent T P <= - Z.log2 P.
Proof.
  intros [HT0 HT] [HP0 HP].
  assert (HlT : Z.log2 T < 53) by (apply Z.log2_lt_pow2; lia).
  assert (HlP : Z.log2 P < 1074) by (apply Z.log2_lt_pow2; lia).
  pose proof (Z.log2_nonneg T). pose proof (Z.log2_nonneg P).
  unfold div_exponent.
  destruct (scaled T P (Z.log2 T - Z.log2 P - 53)) as [n d].
  destruct (n / d <? 2 ^ 53); lia.
Qed.

Lemma true_div_ceil_exact T P :
  0 < T < 2 ^ 53 -> 0 < P < 2 ^ 1074 ->
  exists x, true_div T P = Ok x /\ ceil x = - ((- T) / P).
Proof.
  intros HT HP.
  pose proof (div_exponent_small T P HT HP) as He.
  pose proof (Z.log2_nonneg P) as HlP0.
  destruct (Z.log2_spec P ltac:(lia)) as [_ HPlt].
  unfold true_div.
  destruct (Z.eqb_spec P 0) as [E | _]; [lia |].
  destruct (Z.eqb_spec T 0) as [E | _]; [lia |].
  rewrite (Z.abs_eq T), (Z.abs_eq P) by lia.
  rewrite (Z.sgn_pos T), (Z.sgn_pos P) by lia.
  unfold div_pos. set (e := div_exponent T P) in *.
  unfold scaled.
  destruct (Z.leb_spec 0 e) as [He0 | He0].
  - (* e = 0: P = 1 and the quotient is T itself *)
    assert (He' : e = 0) by lia. assert (HlP : Z.log2 P = 0) by lia.
    assert (HP1 : P = 1) by (rewrite HlP in HPlt; cbn in HPlt; lia).
    subst P. rewrite He'. cbn [fmant fexp].
    replace (1 * 2 ^ 0) with 1 by reflexivity.
    assert (Hm : round_half_even T 1 = T).
    { destruct (round_half_even_bounds T 1 ltac:(lia) ltac:(lia)) as (_ & Hex & _).
      rewrite Hex by apply Z.mod_1_r. apply Z.div_1_r. }
    rewrite Hm.
    assert (HlT : Z.log2 T < 53) by (apply Z.log2_lt_pow2; lia).
    destruct (Z.leb_spec 1024 (Z.log2 T + 0)); [lia |].
    eexists; split; [reflexivity |].
    unfold ceil. cbn [fmant fexp Z.leb Z.compare].
    rewrite Z.div_1_r. change (2 ^ 0) with 1. lia.
  - (* e < 0 *)
    cbn [fmant fexp].
    set (K := 2 ^ (- e)).
    assert (HK : 0 < K) by (apply Z.pow_pos_nonneg; lia).
    assert (HPK : P < 2 * K).
    { unfold K. replace (2 * 2 ^ (- e)) with (2 ^ Z.succ (- e))
        by (rewrite Z.pow_succ_r; lia).
      eapply Z.lt_le_trans; [exact HPlt |].
      apply Z.pow_le_mono_r; lia. }
    set (m := round_half_even (T * K) P).
    assert (Hm : 0 <= m <= T * K + 1) by (apply round_half_even_le; nia).
    assert (Hlog : Z.log2 m + e < 1024).
    { destruct (Z.eq_dec m 0) as [-> | Hm0]; [cbn; lia |].
      assert (Z.log2 m < 54 + - e); [| lia].
      apply Z.log2_lt_pow2; [lia |].
      rewrite Z.pow_add_r by lia. fold K. nia. }
    destruct (Z.leb_spec 1024 (Z.log2 m + e)); [lia |].
    eexists; split; [reflexivity |].
    unfold ceil. cbn [fmant fexp].
    destruct (Z.leb_spec 0 e); [lia |].
    fold K. replace (1 * 1 * m) with m by lia.
    apply ceil_of_rounded; lia.
Qed.

Lemma compute_total_pages_exact T P :
  0 < T < 2 ^ 53 -> 0 < P < 2 ^ 1074 ->
  compute_total_pages T P = Ok (spec_total_pages T P).
Proof.
  intros HT HP. unfold compute_total_pages, spec_total_pages.
  destruct (Z.eqb_spec T 0) as [E | _]; [lia |].
  destruct (true_div_ceil_exact T P HT HP) as (x & -> & ->).
  destruct (Z.ltb_spec 0 P); [| lia]. destruct (Z.ltb_spec 0 T); [| lia].
  reflexivity.
Qed.

(** The model of [/] against the division of the Standard Library's IEEE
    754 model, which divides the integer significands exactly and rounds
    once; the last pair is the first page of 3 previews that
    counts [3 * 2^52 + 1] results. *)
Lemma true_div_matches_SFdiv :
  Forall (fun '(a, b) =>
            match true_div a b with
            | Ok x => to_spec_float x = SFdiv 53 1024 (spec_of_int a) (spec_of_int b)
            | Raise _ => False
            end)
         [(95, 30); (1, 3); (2, 3); (-5, 3); (7, 7); (1000000, 30);
          (9007199254740991, 30); (4503599627370497, 2); (1, 1125899906842624);
          (13510798882111489, 3)].
Proof. repeat constructor. Qed.

Section Facts.

Context {W : World}.

(** *** The first page *)

Lemma first_page_not_200 url max_pages r log :
  site url = Some r -> status_code r <> 200 ->
  scrape_search url max_pages log
  = (Raise (AssertionError "Scraper is being blocked"), log ++ [url]).
Proof.
  intros Hsite Hstatus. unfold scrape_search, bind. cbn. rewrite Hsite.
  destruct (Z.eqb_spec (status_code r) 200) as [E | _]; [contradiction | reflexivity].
Qed.

(** C7. A first page that answers with a status other than 200, so with
    any status that is not a success, makes [scrape_search] raise the
    assertion error "Scraper is being blocked" right after that one
    request: nothing else is requested and no list is returned. *)
Theorem first_page_failure_is_fatal url max_pages r log :
  site url = Some r ->
  status_code r <> 200 ->
  scrape_search url max_pages log
  = (Raise (AssertionError "Scraper is being blocked"), log ++ [url])
  /\ (forall results log', scrape_search url max_pages log <> (Ok results, log')).
Proof.
  intros Hsite Hstatus.
  rewrite (first_page_not_200 url max_pages r log Hsite Hstatus).
  split; [reflexivity | discriminate].
Qed.

(** *** Which exceptions leave each step *)

Lemma scrape_restaurant_details_raises u log e log' :
  scrape_restaurant_details u log = (Raise e, log') ->
  e = TransportError \/ e = AssertionError "Failed to retrieve restaurant page".
Proof.
  unfold scrape_restaurant_details, bind, assert, ret, raise. cbn.
  destruct (site u) as [r |]; [| intros [= <- _]; now left].
  destruct (status_code r =? 200); intros [= <- _]; now right.
Qed.

Lemma scrape_details_raises results : forall log e log',
  scrape_details results log = (Raise e, log') ->
  e = TransportError \/ e = AssertionError "Failed to retrieve restaurant page".
Proof.
  induction results as [| p rest IH]; intros log e log'; cbn [scrape_details].
  - discriminate.
  - unfold bind at 1.
    destruct (scrape_restaurant_details (url p) log) as [[d | e1] log1] eqn:Hd.
    + unfold bind at 1.
      destruct (scrape_details rest log1) as [[rest' | e2] log2] eqn:Hr.
      * discriminate.
      * intros [= <- _]. eapply IH; eassumption.
    + intros [= <- _]. eapply scrape_restaurant_details_raises; eassumption.
Qed.

Lemma extend_completed_raises completed : forall results e,
  extend_completed results completed = Raise e -> e = TransportError.
Proof.
  induction completed as [| u rest IH]; intros results e; cbn.
  - discriminate.
  - destruct (site u) as [r |]; [apply IH | now intros [= <-]].
Qed.

Lemma int_raises s e : int s = Raise e -> e = ValueError.
Proof.
  unfold int.
  match goal with |- match ?p with _ => _ end = _ -> _ => destruct p end;
    [| now intros [= <-]].
  match goal with |- (if ?c then _ else _) = _ -> _ => destruct c end;
    [now intros [= <-] | discriminate].
Qed.

Lemma parse_total_results_raises text e :
  parse_total_results text = Raise e -> e = IndexError \/ e = ValueError.
Proof.
  unfold parse_total_results. destruct (truthy text); [| discriminate].
  destruct (split text) as [| tok toks]; cbn.
  - intros [= <-]. now left.
  - intros H. right. eapply int_raises; eassumption.
Qed.

Lemma true_div_by_zero a : true_div a 0 = Raise ZeroDivisionError.
Proof. reflexivity. Qed.

Lemma true_div_raises a b e :
  b <> 0 -> true_div a b = Raise e -> e = OverflowError.
Proof.
  intros Hb. unfold true_div.
  destruct (Z.eqb_spec b 0) as [E | _]; [contradiction |].
  destruct (a =? 0); [discriminate |].
  match goal with |- (if ?c then _ else _) = _ -> _ => destruct c end;
    [now intros [= <-] | discriminate].
Qed.

Lemma compute_total_pages_raises total_results page_size e :
  page_size <> 0 ->
  compute_total_pages total_results page_size = Raise e -> e = OverflowError.
Proof.
  intros Hp. unfold compute_total_pages.
  destruct (total_results =? 0); [discriminate |].
  destruct (true_div total_results page_size) as [x | e1] eqn:Hdiv; [discriminate |].
  intros [= <-]. eapply true_div_raises; eassumption.
Qed.

(** Every exception that can leave [scrape_search]. *)
Lemma scrape_search_raises url max_pages log e log' :
  scrape_search url max_pages log = (Raise e, log') ->
  In e [TransportError; AssertionError "Scraper is being blocked";
        AssertionError "Failed to retrieve restaurant page";
        IndexError; ValueError; OverflowError].
Proof.
  unfold scrape_search. unfold bind at 1. cbn [client_get].
  destruct (site url) as [r |]; [| intros [= <- _]; cbn; tauto].
  unfold bind at 1, assert.
  destruct (status_code r =? 200); cbn [raise ret];
    [| intros [= <- _]; cbn; tauto].
  destruct (parse_search_page r) as [| p l] eqn:Hparse; [discriminate |].
  unfold bind at 1, lift.
  destruct (parse_total_results _) as [total | e1] eqn:Htotal;
    [| intros [= <- _]; apply parse_total_results_raises in Htotal;
       destruct Htotal as [-> | ->]; cbn; tauto].
  unfold bind at 1.
  destruct (compute_total_pages _ _) as [pages | e1] eqn:Hpages;
    [| intros [= <- _]; apply compute_total_pages_raises in Hpages;
       [subst e1; cbn; tauto | cbn [List.length]; lia]].
  unfold bind at 1, scrape_other_pages.
  destruct (extend_completed _ _) as [results | e1] eqn:Hext.
  - intros H. apply scrape_details_raises in H. destruct H as [-> | ->]; cbn; tauto.
  - intros [= <- _]. apply extend_completed_raises in Hext. subst e1. cbn. tauto.
Qed.

Lemma empty_first_page url max_pages r log :
  site url = Some r -> status_code r = 200 -> listings (doc r) = [] ->
  scrape_search url max_pages log = (Ok [], log ++ [url]).
Proof.
  intros Hsite Hstatus Hnone.
  unfold scrape_search, bind, parse_search_page. cbn.
  rewrite Hsite, Hstatus, Hnone. reflexivity.
Qed.

(** C9. The division of line 80 never divides by zero: [scrape_search]
    reaches it only with one preview at least, so no call raises
    [ZeroDivisionError]. A first page without any preview ends the call at
    once with the empty list: the first page is the only page requested. *)
Theorem page_size_positive_when_dividing url max_pages log :
  fst (scrape_search url max_pages log) <> Raise ZeroDivisionError
  /\ (forall r,
        site url = Some r -> status_code r = 200 -> listings (doc r) = [] ->
        scrape_search url max_pages log = (Ok [], log ++ [url])).
Proof.
  split.
  - destruct (scrape_search url max_pages log) as [[results | e] log'] eqn:H;
      cbn; [discriminate |].
    apply scrape_search_raises in H. intros [= ->].
    cbn in H. intuition discriminate.
  - intros r. apply empty_first_page.
Qed.

(** *** The pagination plan *)

Lemma range_length lo hi : List.length (range lo hi) = Z.to_nat (hi - lo).
Proof. unfold range. now rewrite length_map, length_seq. Qed.



Lemma other_page_urls_empty next_page_url page_size total_pages :
  total_pages <= 1 -> other_page_urls next_page_url page_size total_pages = [].
Proof.
  intros Hle. unfold other_page_urls, range.
  replace (Z.to_nat (total_pages - 1)) with 0%nat by lia.
  destruct next_page_url as [next |]; [destruct (truthy next) |]; reflexivity.
Qed.


Lemma clamp_nonzero m total_pages :
  m <> 0 -> m < total_pages -> clamp_total_pages (Some m) total_pages = m.
Proof.
  intros Hm Hlt. unfold clamp_total_pages.
  destruct (Z.eqb_spec m 0) as [E | _]; [contradiction |].
  destruct (Z.ltb_spec m total_pages) as [_ | Hge]; [reflexivity | lia].
Qed.

Lemma clamp_unset total_pages : clamp_total_pages None total_pages = total_pages.
Proof. reflexivity. Qed.

Lemma clamp_zero total_pages : clamp_total_pages (Some 0) total_pages = total_pages.
Proof. reflexivity. Qed.

Lemma clamp_le max_pages total_pages :
  clamp_total_pages max_pages total_pages <= total_pages.
Proof.
  unfold clamp_total_pages. destruct max_pages as [m |]; [| lia].
  destruct (negb (m =? 0)); cbn; [| lia].
  destruct (Z.ltb_spec m total_pages); lia.
Qed.

Lemma compute_total_pages_zero page_size : compute_total_pages 0 page_size = Ok 1.
Proof. reflexivity. Qed.

(** With no results counted, one page: the plan is empty. *)
Lemma no_results_no_other_page next_page_url page_size max_pages :
  compute_total_pages 0 page_size = Ok 1
  /\ other_page_urls next_page_url page_size (clamp_total_pages max_pages 1) = [].
Proof.
  split; [reflexivity |].
  apply other_page_urls_empty, clamp_le.
Qed.

(** *** The results label *)

Lemma missing_results_count : parse_total_results (get_default "" None) = Ok 0.
Proof. reflexivity. Qed.

(** A label of white space only has no first word. *)
Lemma blank_results_count : parse_total_results "   " = Raise IndexError.
Proof. reflexivity. Qed.

(** C5, amended. Only a missing or empty results label gives
    [total_results = 0]. A label that is there and does not parse raises:
    the error leaves [scrape_search] right after the first page. *)
Theorem malformed_results_count_propagates url max_pages r log text e :
  site url = Some r -> status_code r = 200 ->
  listings (doc r) <> [] ->
  results_count (doc r) = Some text ->
  parse_total_results text = Raise e ->
  parse_total_results (get_default "" None) = Ok 0
  /\ parse_total_results "" = Ok 0
  /\ scrape_search url max_pages log = (Raise e, log ++ [url]).
Proof.
  intros Hsite Hstatus Hsome Hlabel Hparse.
  split; [reflexivity | split; [reflexivity |]].
  unfold scrape_search, bind, parse_search_page. cbn [client_get].
  rewrite Hsite, Hstatus. cbn.
  destruct (listings (doc r)) as [| b bs]; [contradiction |].
  cbn. unfold lift. rewrite Hlabel. cbn. now rewrite Hparse.
Qed.

(** *** The details of the previews *)

Lemma scrape_restaurant_details_ok u r log :
  site u = Some r -> status_code r = 200 ->
  scrape_restaurant_details u log = (Ok (restaurant_fields r), log ++ [u]).
Proof.
  intros Hsite Hstatus.
  unfold scrape_restaurant_details, bind. cbn [client_get].
  now rewrite Hsite, Hstatus.
Qed.

Lemma scrape_restaurant_details_not_200 u r log :
  site u = Some r -> status_code r <> 200 ->
  scrape_restaurant_details u log
  = (Raise (AssertionError "Failed to retrieve restaurant page"), log ++ [u]).
Proof.
  intros Hsite Hstatus.
  unfold scrape_restaurant_details, bind. cbn [client_get].
  rewrite Hsite.
  destruct (Z.eqb_spec (status_code r) 200) as [E | _]; [contradiction | reflexivity].
Qed.

Lemma scrape_details_cons p rest log d log1 :
  scrape_restaurant_details (url p) log = (Ok d, log1) ->
  scrape_details (p :: rest) log
  = match scrape_details rest log1 with
    | (Ok rest', log2) => (Ok (set_details p d :: rest'), log2)
    | (Raise e, log2) => (Raise e, log2)
    end.
Proof.
  intros Hd. cbn [scrape_details]. unfold bind at 1. rewrite Hd.
  unfold bind, ret. now destruct (scrape_details rest log1) as [[rest' | e] log2].
Qed.

Lemma scrape_details_ok results : forall log,
  Forall detail_ok results ->
  scrape_details results log = (Ok (map enriched results), log ++ map url results).
Proof.
  induction results as [| p rest IH]; intros log Hall.
  - cbn. now rewrite app_nil_r.
  - inversion Hall as [| ? ? (r & Hsite & Hstatus) Hrest]; subst.
    rewrite (scrape_details_cons p rest log _ _
               (scrape_restaurant_details_ok _ r log Hsite Hstatus)).
    rewrite (IH _ Hrest). cbn [List.map].
    replace (enriched p) with (set_details p (restaurant_fields r))
      by (unfold enriched; now rewrite Hsite).
    now rewrite <- app_assoc.
Qed.

Lemma scrape_details_stops pre p post r log :
  Forall detail_ok pre ->
  site (url p) = Some r ->
  status_code r <> 200 ->
  scrape_details (pre ++ p :: post) log
  = (Raise (AssertionError "Failed to retrieve restaurant page"),
     log ++ map url pre ++ [url p]).
Proof.
  revert log. induction pre as [| q pre IH]; intros log Hpre Hsite Hstatus.
  - cbn [List.app List.map scrape_details]. unfold bind at 1.
    now rewrite (scrape_restaurant_details_not_200 _ r log Hsite Hstatus).
  - inversion Hpre as [| ? ? (rq & Hq & Hq200) Hrest]; subst.
    cbn [List.app].
    rewrite (scrape_details_cons q _ log _ _
               (scrape_restaurant_details_ok _ rq log Hq Hq200)).
    rewrite (IH _ Hrest Hsite Hstatus). cbn [List.map List.app].
    now rewrite <- app_assoc.
Qed.

Lemma scrape_details_frame results : forall log out log',
  scrape_details results log = (Ok out, log') ->
  List.length out = List.length results
  /\ map url out = map url results
  /\ map name out = map name results.
Proof.
  induction results as [| p rest IH]; intros log out log'.
  - cbn. intros [= <- _]. auto.
  - cbn [scrape_details]. unfold bind at 1.
    destruct (scrape_restaurant_details (url p) log) as [[[[n r] a] | e] log1];
      [| discriminate].
    unfold bind at 1.
    destruct (scrape_details rest log1) as [[rest' | e] log2] eqn:Hrest;
      [| discriminate].
    intros [= <- _]. destruct (IH _ _ _ Hrest) as (Hlen & Hurl & Hname).
    cbn. now rewrite Hlen, Hurl, Hname.
Qed.

(** C10. The list that the enrichment returns has the length of the list
    it was given and, position by position, the same [url] and [name]:
    only [numberOfReviews], [rating] and [address] are written. It does
    return one whenever every detail page answers with status 200. *)
Theorem enrichment_frame results log :
  (forall out log',
     scrape_details results log = (Ok out, log') ->
     List.length out = List.length results
     /\ map url out = map url results
     /\ map name out = map name results)
  /\ (Forall detail_ok results ->
      exists out, scrape_details results log = (Ok out, log ++ map url results)).
Proof.
  split.
  - apply scrape_details_frame.
  - intros Hall. eexists. now apply scrape_details_ok.
Qed.

Lemma enriched_rating p r :
  site (url p) = Some r ->
  rating (enriched p) = re_first_bubble (bubble_classes (doc r)).
Proof. intros Hsite. unfold enriched. now rewrite Hsite. Qed.

(** Without a match of the rating pattern, the rating that
    [scrape_restaurant_details] returns is [None]. *)
Lemma rating_without_match u r log :
  site u = Some r -> status_code r = 200 ->
  re_first_bubble (bubble_classes (doc r)) = None ->
  exists number_of_reviews address,
    scrape_restaurant_details u log
    = (Ok (number_of_reviews, None, address), log ++ [u]).
Proof.
  intros Hsite Hstatus Hnone.
  rewrite (scrape_restaurant_details_ok u r log Hsite Hstatus).
  unfold restaurant_fields. rewrite Hnone. eauto.
Qed.

(** *** The other pages *)

Lemma insert_completed_perm u done :
  Permutation (insert_completed u done) (u :: done).
Proof.
  induction done as [| v rest IH]; cbn; [reflexivity |].
  destruct (latency u <=? latency v)%nat; [reflexivity |].
  rewrite IH. apply perm_swap.
Qed.

Lemma as_completed_perm urls : Permutation (as_completed urls) urls.
Proof.
  induction urls as [| u rest IH]; cbn; [reflexivity |].
  rewrite insert_completed_perm. now constructor.
Qed.

Lemma extend_completed_ok completed : forall results,
  Forall (fun u => site u <> None) completed ->
  extend_completed results completed
  = Ok (results ++ List.concat (map page_previews completed)).
Proof.
  induction completed as [| u rest IH]; intros results Hall; cbn.
  - now rewrite app_nil_r.
  - inversion Hall as [| ? ? Hu Hrest]; subst.
    unfold page_previews at 1.
    destruct (site u) as [r |]; [| contradiction].
    rewrite (IH _ Hrest). now rewrite <- app_assoc.
Qed.

Lemma extend_completed_transport_error completed : forall results,
  Exists (fun u => site u = None) completed ->
  extend_completed results completed = Raise TransportError.
Proof.
  induction completed as [| u rest IH]; intros results Hex; cbn.
  - inversion Hex.
  - destruct (site u) as [r |] eqn:Hu; [| reflexivity].
    apply IH. inversion Hex as [? ? H | ? ? H]; subst; [congruence | assumption].
Qed.

Lemma page_previews_whatever_status u r :
  site u = Some r -> page_previews u = parse_search_page r.
Proof. intros Hsite. unfold page_previews. now rewrite Hsite. Qed.

Lemma list_sum_perm l l' : Permutation l l' -> list_sum l = list_sum l'.
Proof.
  induction 1 as [| x l l' _ IH | x y l | l l' l'' _ IH1 _ IH2].
  - reflexivity.
  - change (x + list_sum l = x + list_sum l')%nat. now rewrite IH.
  - change (y + (x + list_sum l) = x + (y + list_sum l))%nat. lia.
  - now rewrite IH1.
Qed.

Lemma concat_perm {A} (l l' : list (list A)) :
  Permutation l l' -> Permutation (List.concat l) (List.concat l').
Proof.
  induction 1 as [| x l l' _ IH | x y l | l l' l'' _ IH1 _ IH2]; cbn.
  - constructor.
  - now apply Permutation_app_head.
  - apply Permutation_app_swap_app.
  - now rewrite IH1.
Qed.

Lemma length_concat_previews urls :
  List.length (List.concat (map page_previews urls))
  = list_sum (map (fun u => List.length (page_previews u)) urls).
Proof.
  induction urls as [| u rest IH]; cbn; [reflexivity |].
  now rewrite length_app, IH.
Qed.

(** After a first page with previews, [scrape_search] is the crawl of the
    planned pages followed by the details. *)
Lemma scrape_search_after_first_page url max_pages r log total pages :
  site url = Some r -> status_code r = 200 ->
  parse_search_page r <> [] ->
  parse_total_results (get_default "" (results_count (doc r))) = Ok total ->
  compute_total_pages total (Z.of_nat (List.length (parse_search_page r))) = Ok pages ->
  scrape_search url max_pages log
  = (results <- scrape_other_pages (parse_search_page r)
                  (other_page_urls (resolve_next_page url (next_page (doc r)))
                     (Z.of_nat (List.length (parse_search_page r)))
                     (clamp_total_pages max_pages pages)) ;;
     scrape_details results) (log ++ [url]).
Proof.
  intros Hsite Hstatus Hsome Htotal Hpages.
  unfold scrape_search. unfold bind at 1. cbn [client_get].
  rewrite Hsite. unfold bind at 1. rewrite Hstatus. cbn [Z.eqb Pos.eqb assert ret].
  destruct (parse_search_page r) as [| p l] eqn:Hparse; [contradiction |].
  unfold bind at 1, lift. rewrite Htotal.
  unfold bind at 1. rewrite Hpages. reflexivity.
Qed.

(** [scrape_search] ends with the enrichment of what the crawl gathered. *)
Lemma scrape_search_enriches url max_pages log results log' :
  crawl_gives url max_pages log results log' ->
  scrape_search url max_pages log = scrape_details results log'.
Proof.
  intros (r & total & pages & Hsite & Hstatus & Hsome & Htotal & Hpages & Hcrawl).
  rewrite (scrape_search_after_first_page url max_pages r log total pages
             Hsite Hstatus Hsome Htotal Hpages).
  unfold bind at 1. now rewrite Hcrawl.
Qed.

(** C6, amended. A [max_pages] that is not zero and is below the computed
    number of pages replaces it. With [max_pages = 2], five computed pages
    and a next-page URL, the plan is exactly one URL, that of page 2: after
    the first page, [scrape_search] requests that page and then the
    details. *)
Theorem clamp_to_nonzero_max_pages :
  (forall m total_pages,
     m <> 0 -> m < total_pages -> clamp_total_pages (Some m) total_pages = m)
  /\ (forall next page_size,
        truthy next = true ->
        other_page_urls (Some next) page_size (clamp_total_pages (Some 2) 5)
        = [replace next ("oa" ++ str page_size) ("oa" ++ str (page_size * 1))])
  /\ (forall url r log total next,
        site url = Some r -> status_code r = 200 ->
        parse_search_page r <> [] ->
        parse_total_results (get_default "" (results_count (doc r))) = Ok total ->
        compute_total_pages total (Z.of_nat (List.length (parse_search_page r))) = Ok 5 ->
        resolve_next_page url (next_page (doc r)) = Some next ->
        truthy next = true ->
        scrape_search url (Some 2) log
        = (results <- scrape_other_pages (parse_search_page r)
                        [replace next
                           ("oa" ++ str (Z.of_nat (List.length (parse_search_page r))))
                           ("oa" ++ str (Z.of_nat (List.length (parse_search_page r)) * 1))] ;;
           scrape_details results) (log ++ [url])).
Proof.
  assert (Hplan : forall next page_size,
             truthy next = true ->
             other_page_urls (Some next) page_size (clamp_total_pages (Some 2) 5)
             = [replace next ("oa" ++ str page_size) ("oa" ++ str (page_size * 1))]).
  { intros next page_size Hnext. unfold other_page_urls. now rewrite Hnext. }
  split; [exact clamp_nonzero | split; [exact Hplan |]].
  intros url r log total next Hsite Hstatus Hsome Htotal Hpages Hresolve Hnext.
  rewrite (scrape_search_after_first_page url (Some 2) r log total 5
             Hsite Hstatus Hsome Htotal Hpages).
  now rewrite Hresolve, (Hplan next _ Hnext).
Qed.

(** C1, amended. A detail page that answers with a status other than 200
    stops the enrichment at its record with the assertion error "Failed to
    retrieve restaurant page": the records before it have been requested,
    those after it never are. The error leaves [scrape_search], which
    returns no list. *)
Theorem detail_failure_aborts pre p post r log :
  Forall detail_ok pre ->
  site (url p) = Some r ->
  status_code r <> 200 ->
  scrape_details (pre ++ p :: post) log
  = (Raise (AssertionError "Failed to retrieve restaurant page"),
     log ++ map url pre ++ [url p])
  /\ (forall url0 max_pages log0,
        crawl_gives url0 max_pages log0 (pre ++ p :: post) log ->
        scrape_search url0 max_pages log0
        = (Raise (AssertionError "Failed to retrieve restaurant page"),
           log ++ map url pre ++ [url p])).
Proof.
  intros Hpre Hsite Hstatus.
  pose proof (scrape_details_stops pre p post r log Hpre Hsite Hstatus) as Hstop.
  split; [exact Hstop |].
  intros url0 max_pages log0 Hcrawl.
  now rewrite (scrape_search_enriches _ _ _ _ _ Hcrawl).
Qed.

(** C2, amended. The response of a planned page is parsed whatever its
    status: when every planned page answers and every detail page answers
    200, [scrape_search] returns as many previews as the first page and all
    the answers of the planned pages hold together. A planned page whose
    request ends in a transport error makes [scrape_search] raise. *)
Theorem secondary_pages_parsed_whatever_status url max_pages r log total pages :
  site url = Some r -> status_code r = 200 ->
  parse_search_page r <> [] ->
  parse_total_results (get_default "" (results_count (doc r))) = Ok total ->
  compute_total_pages total (Z.of_nat (List.length (parse_search_page r))) = Ok pages ->
  let urls := other_page_urls (resolve_next_page url (next_page (doc r)))
                (Z.of_nat (List.length (parse_search_page r)))
                (clamp_total_pages max_pages pages) in
  (Exists (fun u => site u = None) urls ->
   scrape_search url max_pages log = (Raise TransportError, log ++ [url] ++ urls))
  /\ (Forall (fun u => site u <> None) urls ->
      Forall detail_ok (parse_search_page r ++ List.concat (map page_previews urls)) ->
      exists out log',
        scrape_search url max_pages log = (Ok out, log')
        /\ List.length out
           = (List.length (parse_search_page r)
              + list_sum (map (fun u => List.length (page_previews u)) urls))%nat).
Proof.
  intros Hsite Hstatus Hsome Htotal Hpages urls.
  rewrite (scrape_search_after_first_page url max_pages r log total pages
             Hsite Hstatus Hsome Htotal Hpages).
  fold urls. unfold bind, scrape_other_pages.
  split.
  - intros Hex. rewrite extend_completed_transport_error.
    + now rewrite <- app_assoc.
    + apply Exists_exists. apply Exists_exists in Hex as (u & Hin & Hu).
      exists u. split; [| exact Hu].
      eapply Permutation_in; [symmetry; apply as_completed_perm | exact Hin].
  - intros Hall Hdetails.
    assert (Hperm : Permutation (as_completed urls) urls) by apply as_completed_perm.
    rewrite extend_completed_ok.
    + rewrite scrape_details_ok.
      * do 2 eexists. split; [reflexivity |].
        rewrite length_map, length_app, length_concat_previews.
        f_equal. apply list_sum_perm. now apply Permutation_map.
      * eapply Permutation_Forall; [| exact Hdetails].
        apply Permutation_app_head. apply concat_perm.
        apply Permutation_map. now symmetry.
    + eapply Permutation_Forall; [symmetry; exact Hperm | exact Hall].
Qed.

End Facts.

Lemma first_page_failure_is_fatal_witness :
  Mock.scrape_search "http://t/blocked" (Some 3) []
  = (Raise (AssertionError "Scraper is being blocked"), ["http://t/blocked"]%string)
  /\ (forall results log',
        Mock.scrape_search "http://t/blocked" (Some 3) [] <> (Ok results, log')).
Proof.
  apply (first_page_failure_is_fatal (W := Mock.world)
           "http://t/blocked" (Some 3)
           {| status_code := 503; response_url := "http://t/blocked";
              doc := Mock.empty_document |} []).
  - reflexivity.
  - cbn. lia.
Defined.

Lemma page_size_positive_when_dividing_witness :
  fst (Mock.scrape_search "http://t/none" None []) <> Raise ZeroDivisionError
  /\ Mock.scrape_search "http://t/none" None [] = (Ok [], ["http://t/none"]%string).
Proof.
  pose proof (page_size_positive_when_dividing (W := Mock.world)
                "http://t/none" None []) as [Hdiv Hnone].
  split; [exact Hdiv |].
  apply (Hnone {| status_code := 200; response_url := "http://t/none";
                  doc := Mock.empty_document |}); reflexivity.
Defined.

(** C6 as stated fails for [max_pages = 0], which line 83 reads as no
    limit: five computed pages stay five, and [http://t/p] is crawled to its
    third page. It also fails without a next-page link: [max_pages = 2] and
    five computed pages then plan no URL at all. *)
Lemma max_pages_zero_does_not_clamp :
  clamp_total_pages (Some 0) 5 = 5
  /\ snd (Mock.scrape_search "http://t/p" (Some 0) [])
     = ["http://t/p"; "http://t/p-oa1"; "http://t/p-oa2";
        "http://t/a"; "http://t/a"; "http://t/d"]%string
  /\ other_page_urls None 30 (clamp_total_pages (Some 2) 5) = [].
Proof. repeat split; reflexivity. Qed.

Lemma clamp_to_nonzero_max_pages_witness :
  clamp_total_pages (Some 2) 5 = 2
  /\ other_page_urls (Some "http://t/R-oa30-x.html"%string) 30
       (clamp_total_pages (Some 2) 5)
     = ["http://t/R-oa30-x.html"%string]
  /\ Mock.scrape_search "http://t/five" (Some 2) []
     = (results <- scrape_other_pages (W := Mock.world)
                     [ Mock.preview "http://t/a" "A" ]
                     ["http://t/five-oa1"%string] ;;
        Mock.scrape_details results) ["http://t/five"%string]
  /\ snd (Mock.scrape_search "http://t/five" (Some 2) [])
     = ["http://t/five"; "http://t/five-oa1"; "http://t/a"; "http://t/d"]%string.
Proof.
  destruct (clamp_to_nonzero_max_pages (W := Mock.world))
    as (Hclamp & Hplan & Hsearch).
  split; [exact (Hclamp 2 5 ltac:(lia) ltac:(lia)) |].
  split; [exact (Hplan "http://t/R-oa30-x.html"%string 30 eq_refl) |].
  split; [| reflexivity].
  refine (Hsearch "http://t/five"%string
            {| status_code := 200; response_url := "http://t/five";
               doc := Mock.search_document [Mock.box "A" "http://t/a"]
                        (Some "5 results"%string)
                        (Some "http://t/five-oa1"%string) |}
            [] 5 "http://t/five-oa1"%string
            eq_refl eq_refl _ eq_refl eq_refl eq_refl eq_refl).
  discriminate.
Defined.

(** C5 as stated fails on the label "about 40 results". *)
Lemma malformed_results_count_raises :
  Mock.scrape_search "http://t/label" None []
  = (Raise ValueError, ["http://t/label"]%string).
Proof. reflexivity. Qed.

Lemma malformed_results_count_propagates_witness :
  parse_total_results (get_default "" None) = Ok 0
  /\ parse_total_results "" = Ok 0
  /\ Mock.scrape_search "http://t/label" (Some 3) []
     = (Raise ValueError, ["http://t/label"]%string).
Proof.
  apply (malformed_results_count_propagates (W := Mock.world)
           "http://t/label" (Some 3)
           {| status_code := 200; response_url := "http://t/label";
              doc := Mock.search_document [Mock.box "A" "http://t/a"]
                       (Some "about 40 results"%string) None |}
           [] "about 40 results" ValueError).
  - reflexivity.
  - reflexivity.
  - discriminate.
  - reflexivity.
  - reflexivity.
Defined.

(** C3. Line 80 divides in binary64 before it takes the ceiling. Below
    [2^53] results that is exact ([compute_total_pages_exact]); on a first
    page of 3 previews that counts 13510798882111489 results, the quotient
    rounds down to the integer [2^52] and the page that holds the last
    result is lost. On a page that counts [10^400] results the division
    raises and [scrape_search] fails, whatever [max_pages]. *)
Theorem total_pages_rounding_error :
  parse_total_results "13,510,798,882,111,489 results" = Ok 13510798882111489
  /\ compute_total_pages 13510798882111489 3 = Ok 4503599627370496
  /\ spec_total_pages 13510798882111489 3 = 4503599627370497
  /\ compute_total_pages 95 30 = Ok 4
  /\ parse_total_results Mock.huge_label = Ok (10 ^ 400)
  /\ Mock.scrape_search "http://t/huge" (Some 1) []
     = (Raise OverflowError, ["http://t/huge"]%string).
Proof. repeat split; vm_compute; reflexivity. Qed.

(** C8. The second restaurant of [http://t/ab] has a rating bubble whose
    class carries no [bubble_<digits>]: its record comes back with
    [rating = None], not with the empty string. *)
Theorem rating_without_match_is_None :
  Mock.scrape_search "http://t/ab" None []
  = (Ok [ {| url := "http://t/a"; name := "A"; numberOfReviews := "12 reviews";
             rating := Some "45"%string; address := "1 rue A" |};
          {| url := "http://t/b"; name := "B"; numberOfReviews := "7 reviews";
             rating := None; address := "2 rue B" |} ],
     ["http://t/ab"; "http://t/a"; "http://t/b"]%string).
Proof. reflexivity. Qed.

(** C1 as stated fails: the detail page of the second of three previews
    answers 503 and [scrape_search] raises; the third is never requested. *)
Lemma detail_failure_aborts_search :
  Mock.scrape_search "http://t/acd" None []
  = (Raise (AssertionError "Failed to retrieve restaurant page"),
     ["http://t/acd"; "http://t/a"; "http://t/c"]%string).
Proof. reflexivity. Qed.

Lemma detail_failure_aborts_witness :
  Mock.scrape_details
    [ Mock.preview "http://t/a" "A";
      Mock.preview "http://t/c" "C";
      Mock.preview "http://t/d" "D" ]
    ["http://t/acd"%string]
  = (Raise (AssertionError "Failed to retrieve restaurant page"),
     ["http://t/acd"; "http://t/a"; "http://t/c"]%string)
  /\ Mock.scrape_search "http://t/acd" (Some 3) []
     = (Raise (AssertionError "Failed to retrieve restaurant page"),
        ["http://t/acd"; "http://t/a"; "http://t/c"]%string).
Proof.
  destruct (detail_failure_aborts (W := Mock.world)
              [ Mock.preview "http://t/a" "A" ]
              (Mock.preview "http://t/c" "C")
              [ Mock.preview "http://t/d" "D" ]
              {| status_code := 503; response_url := "http://t/c";
                 doc := Mock.empty_document |}
              ["http://t/acd"%string]) as [Hstep Hsearch].
  - repeat constructor. eexists. split; reflexivity.
  - reflexivity.
  - cbn. lia.
  - split; [exact Hstep |].
    apply (Hsearch "http://t/acd"%string (Some 3) []).
    exists {| status_code := 200; response_url := "http://t/acd";
              doc := Mock.search_document
                       [Mock.box "A" "http://t/a"; Mock.box "C" "http://t/c";
                        Mock.box "D" "http://t/d"] None None |}, 0, 1.
    repeat split; try reflexivity. discriminate.
Defined.

(** C2 as stated fails twice. A transport error on the second page of
    [http://t/q] leaves [scrape_search]. The second page of [http://t/p]
    answers 404 and its listing, restaurant D, is in the output all the
    same: three previews, where the first page and the one page that
    succeeded hold two. *)
Lemma secondary_page_failure_not_dropped :
  Mock.scrape_search "http://t/q" None []
  = (Raise TransportError, ["http://t/q"; "http://t/q-oa1"]%string)
  /\ Mock.scrape_search "http://t/p" None []
     = (Ok [ {| url := "http://t/a"; name := "A"; numberOfReviews := "12 reviews";
                rating := Some "45"%string; address := "1 rue A" |};
             {| url := "http://t/a"; name := "A"; numberOfReviews := "12 reviews";
                rating := Some "45"%string; address := "1 rue A" |};
             {| url := "http://t/d"; name := "D"; numberOfReviews := EmptyString;
                rating := Some "30"%string; address := "4 rue D" |} ],
        ["http://t/p"; "http://t/p-oa1"; "http://t/p-oa2";
         "http://t/a"; "http://t/a"; "http://t/d"]%string).
Proof. split; reflexivity. Qed.

Lemma secondary_pages_parsed_whatever_status_witness :
  Mock.scrape_search "http://t/q" None []
  = (Raise TransportError, ["http://t/q"; "http://t/q-oa1"]%string)
  /\ exists out log',
       Mock.scrape_search "http://t/p" None [] = (Ok out, log')
       /\ List.length out = 3%nat.
Proof.
  split.
  - refine (proj1 (secondary_pages_parsed_whatever_status (W := Mock.world)
                     "http://t/q" None
                     {| status_code := 200; response_url := "http://t/q";
                        doc := Mock.search_document [Mock.box "A" "http://t/a"]
                                 (Some "2 results"%string)
                                 (Some "http://t/q-oa1"%string) |}
                     [] 2 2 eq_refl eq_refl _ eq_refl eq_refl) _).
    + discriminate.
    + constructor. reflexivity.
  - refine (proj2 (secondary_pages_parsed_whatever_status (W := Mock.world)
                     "http://t/p" None
                     {| status_code := 200; response_url := "http://t/p";
                        doc := Mock.search_document [Mock.box "A" "http://t/a"]
                                 (Some "3 results"%string)
                                 (Some "http://t/p-oa1"%string) |}
                     [] 3 3 eq_refl eq_refl _ eq_refl eq_refl) _ _).
    + discriminate.
    + repeat constructor; discriminate.
    + repeat constructor; eexists; split; reflexivity.
Defined.

Lemma enrichment_frame_witness :
  exists out,
    Mock.scrape_details
      [ Mock.preview "http://t/a" "A";
        Mock.preview "http://t/b" "B" ] []
    = (Ok out, ["http://t/a"; "http://t/b"]%string)
    /\ List.length out = 2%nat
    /\ map url out = ["http://t/a"; "http://t/b"]%string
    /\ map name out = ["A"; "B"]%string.
Proof.
  destruct (enrichment_frame (W := Mock.world)
              [ Mock.preview "http://t/a" "A";
                Mock.preview "http://t/b" "B" ] [])
    as [Hframe Hreturns].
  destruct Hreturns as [out Hout].
  - repeat constructor; eexists; split; reflexivity.
  - exists out. split; [exact Hout |]. exact (Hframe out _ Hout).
Defined.

(** * More of the scraper *)

(** ** The string built-ins *)

Lemma lstrip_no_leading s : leading_space (lstrip s) = false.
Proof.
  induction s as [| c s IH]; cbn; [reflexivity |].
  destruct (isspace c) eqn:Hc; [exact IH | cbn; exact Hc].
Qed.

Lemma rstrip_no_trailing s : trailing_space (rstrip s) = false.
Proof.
  induction s as [| c s IH]; cbn; [reflexivity |].
  destruct (rstrip s) as [| c' r] eqn:Hr.
  - destruct (isspace c) eqn:Hc; cbn; [reflexivity | exact Hc].
  - exact IH.
Qed.

Lemma rstrip_keeps_leading s : leading_space s = false -> leading_space (rstrip s) = false.
Proof.
  destruct s as [| c s]; cbn; [reflexivity |].
  intros Hc. destruct (rstrip s); [rewrite Hc |]; cbn; exact Hc.
Qed.

Lemma strip_trimmed s : trimmed (strip s) = true.
Proof.
  unfold trimmed, strip.
  now rewrite rstrip_keeps_leading, rstrip_no_trailing by apply lstrip_no_leading.
Qed.

Lemma lstrip_no_space s : no_space s = true -> lstrip s = s.
Proof.
  destruct s as [| c s]; cbn; [reflexivity |].
  now destruct (isspace c).
Qed.

Lemma rstrip_no_space s : no_space s = true -> rstrip s = s.
Proof.
  induction s as [| c s IH]; cbn; [reflexivity |].
  destruct (isspace c) eqn:Hc; cbn; [discriminate |].
  intros Hs. rewrite (IH Hs). now destruct s.
Qed.

Lemma strip_no_space s : no_space s = true -> strip s = s.
Proof.
  intros Hs. unfold strip. now rewrite lstrip_no_space, rstrip_no_space.
Qed.

Lemma take_digits_all_digits s : all_digits (take_digits s) = true.
Proof.
  induction s as [| c s IH]; cbn; [reflexivity |].
  destruct (isdigit c) eqn:Hc; cbn; [now rewrite Hc | reflexivity].
Qed.

Lemma search_bubble_digits s d :
  search_bubble s = Some d -> is_empty d = false /\ all_digits d = true.
Proof.
  induction s as [| c s IH]; cbn [search_bubble].
  - unfold bubble_at. cbn. discriminate.
  - destruct (bubble_at (String c s)) as [d' |] eqn:Hat; [| exact IH].
    intros [= <-]. unfold bubble_at in Hat.
    destruct (String.prefix "bubble_" (String c s)); [| discriminate].
    destruct (is_empty (take_digits (drop 7 (String c s)))) eqn:He; [discriminate |].
    injection Hat as <-. split; [exact He | apply take_digits_all_digits].
Qed.

Lemma re_first_bubble_digits nodes d :
  re_first_bubble nodes = Some d -> is_empty d = false /\ all_digits d = true.
Proof.
  induction nodes as [| n rest IH]; cbn; [discriminate |].
  destruct (search_bubble n) as [d' |] eqn:Hn; [| exact IH].
  intros [= <-]. eapply search_bubble_digits; eassumption.
Qed.

(** *** [str.replace] *)

Lemma replace_aux_skip old new s : forall k,
  replace_aux old new k s = replace_aux old new O (drop k s).
Proof.
  induction s as [| c s IH]; intros [| k]; cbn [replace_aux drop]; try reflexivity.
  apply IH.
Qed.

Lemma prefix_split old s :
  String.prefix old s = true -> s = (old ++ drop (String.length old) s)%string.
Proof.
  revert s. induction old as [| a old IH]; intros [| b s]; cbn;
    try reflexivity; try discriminate.
  destruct (ascii_dec a b) as [-> | _]; [| discriminate].
  intros H. f_equal. now apply IH.
Qed.

Lemma length_drop k : forall s, (String.length (drop k s) <= String.length s)%nat.
Proof.
  induction k as [| k IH]; intros [| c s]; cbn; try lia.
  specialize (IH s). lia.
Qed.

Lemma replace_aux_same a old n : forall s,
  (String.length s <= n)%nat ->
  replace_aux (String a old) (String a old) O s = s.
Proof.
  induction n as [| n IH]; intros [| c s] Hlen; cbn in Hlen; try reflexivity; try lia.
  cbn [replace_aux].
  destruct (String.prefix (String a old) (String c s)) eqn:Hp.
  - rewrite replace_aux_skip.
    pose proof (prefix_split _ _ Hp) as Hs. cbn in Hs. cbn [String.length Nat.pred].
    injection Hs as Ha Hs. subst c. rewrite Hs at 2. cbn. f_equal.
    f_equal. apply IH. pose proof (length_drop (String.length old) s). lia.
  - f_equal. apply IH. lia.
Qed.

Lemma replace_same s old : is_empty old = false -> replace s old old = s.
Proof.
  intros Hold. unfold replace. rewrite Hold.
  destruct old as [| a old]; [discriminate |].
  now apply (replace_aux_same a old (String.length s)).
Qed.

Lemma replace_aux_absent old new s :
  absent old s = true -> replace_aux old new O s = s.
Proof.
  induction s as [| c s IH]; [reflexivity |].
  cbn [absent replace_aux]. intros H. apply andb_prop in H as [Hp Hs].
  apply negb_true_iff in Hp. rewrite Hp. f_equal. now apply IH.
Qed.

Lemma replace_absent s old new :
  is_empty old = false -> absent old s = true -> replace s old new = s.
Proof.
  intros Hold Habs. unfold replace. rewrite Hold. now apply replace_aux_absent.
Qed.

Lemma prefix_comma c s :
  String.prefix "," (String c s) = Ascii.eqb c ",".
Proof.
  change (String.prefix "," (String c s))
    with (if ascii_dec ","%char c then String.prefix "" s else false).
  destruct (ascii_dec ","%char c) as [<- | Hne].
  - now destruct s.
  - symmetry. apply Ascii.eqb_neq. congruence.
Qed.

Lemma replace_commas s : replace s "," "" = drop_commas s.
Proof.
  unfold replace. cbn [is_empty].
  induction s as [| c s IH]; [reflexivity |].
  cbn [replace_aux drop_commas String.length Nat.pred].
  rewrite prefix_comma, IH. now destruct (Ascii.eqb c ",").
Qed.

Lemma append_empty_r s : (s ++ "")%string = s.
Proof. induction s as [| c s IH]; cbn; [reflexivity | now rewrite IH]. Qed.

Lemma append_assoc_string s t u : ((s ++ t) ++ u)%string = (s ++ (t ++ u))%string.
Proof. induction s as [| c s IH]; cbn; [reflexivity | now rewrite IH]. Qed.

Lemma is_empty_append_r s c t : is_empty (s ++ String c t) = false.
Proof. now destruct s. Qed.

Lemma split_aux_first_word w : forall tok rest,
  no_space w = true ->
  is_empty (tok ++ w) = false ->
  rest = EmptyString \/ leading_space rest = true ->
  first (split_aux tok (w ++ rest)) = Ok (tok ++ w)%string.
Proof.
  induction w as [| c w IH]; intros tok rest Hw Htok Hrest.
  - rewrite append_empty_r in *. cbn [String.append].
    destruct Hrest as [-> | Hrest].
    + cbn. now rewrite Htok.
    + destruct rest as [| c t]; [discriminate |]. cbn in Hrest. cbn.
      now rewrite Hrest, Htok.
  - cbn in Hw. apply andb_prop in Hw as [Hc Hw]. apply negb_true_iff in Hc.
    cbn [String.append split_aux]. rewrite Hc.
    rewrite (IH (tok ++ String c "")%string rest Hw).
    + now rewrite append_assoc_string.
    + rewrite append_assoc_string. apply is_empty_append_r.
    + exact Hrest.
Qed.

Lemma first_word w rest :
  no_space w = true -> is_empty w = false ->
  rest = EmptyString \/ leading_space rest = true ->
  first (split (w ++ rest)) = Ok w.
Proof. intros Hw He Hrest. now apply (split_aux_first_word w EmptyString rest). Qed.

(** *** [int] after [str] *)

Lemma int_digits_of_uint_acc d : forall acc,
  int_digits (Z.pos acc) false (NilEmpty.string_of_uint d)
  = Some (Z.pos (Pos.of_uint_acc d acc)).
Proof.
  induction d as [| d IH | d IH | d IH | d IH | d IH | d IH | d IH | d IH | d IH | d IH];
    intros acc; cbn [NilEmpty.string_of_uint Pos.of_uint_acc int_digits];
    [reflexivity | ..];
    match goal with
    | |- (if isdigit ?c then _ else _) = _ =>
        change (isdigit c) with true; cbv iota;
        match goal with
        | |- int_digits ?v _ _ = Some (Z.pos (Pos.of_uint_acc _ ?a)) =>
            replace v with (Z.pos a)
              by (match goal with
                  | |- context [digit_value ?c] =>
                      let k := eval vm_compute in (digit_value c) in
                      change (digit_value c) with k
                  end; lia)
        end
    end; apply IH.
Qed.

Lemma int_digits_of_uint d :
  int_digits 0 false (NilEmpty.string_of_uint d) = Some (Z.of_uint d).
Proof.
  unfold Z.of_uint.
  induction d as [| d IH | d IH | d IH | d IH | d IH | d IH | d IH | d IH | d IH | d IH];
    cbn [NilEmpty.string_of_uint Pos.of_uint int_digits];
    [reflexivity | exact IH | ..];
    match goal with
    | |- (if isdigit ?c then _ else _) = _ =>
        change (isdigit c) with true; cbv iota
    end;
    match goal with
    | |- int_digits ?v _ _ = Some (Z.of_N (N.pos (Pos.of_uint_acc _ ?a))) =>
        change v with (Z.pos a)
    end; apply int_digits_of_uint_acc.
Qed.

Lemma int_unsigned_of_uint d :
  int_unsigned (NilZero.string_of_uint d) = Some (Z.of_uint d).
Proof.
  pose proof (int_digits_of_uint d) as H.
  destruct d; [reflexivity | ..]; exact H.
Qed.

Lemma no_space_of_uint d : no_space (NilEmpty.string_of_uint d) = true.
Proof. induction d; cbn; auto. Qed.

Lemma no_space_str n : no_space (str n) = true.
Proof.
  unfold str, NilZero.string_of_int, NilZero.string_of_uint.
  destruct (Z.to_int n) as [d | d]; destruct d; cbn; auto using no_space_of_uint.
Qed.

Lemma int_parse_str n :
  match str n with
  | String "-"%char s' => option_map Z.opp (int_unsigned s')
  | String "+"%char s' => int_unsigned s'
  | _ => int_unsigned (str n)
  end = Some n.
Proof.
  replace (Some n) with (Some (Z.of_int (Z.to_int n)))
    by now rewrite DecimalZ.of_to.
  unfold str, NilZero.string_of_int, Z.of_int.
  destruct (Z.to_int n) as [d | d].
  - pose proof (int_unsigned_of_uint d) as H.
    destruct d; cbn [NilZero.string_of_uint NilEmpty.string_of_uint] in *;
      now rewrite H.
  - now rewrite int_unsigned_of_uint.
Qed.

Lemma count_digits_le s : count_digits s <= Z.of_nat (String.length s).
Proof.
  induction s as [| c s IH]; cbn [count_digits String.length]; [lia |].
  destruct (isdigit c); lia.
Qed.

Lemma int_str n :
  (String.length (str n) <= 4300)%nat -> int (str n) = Ok n.
Proof.
  intros Hlen. unfold int. rewrite (strip_no_space _ (no_space_str n)).
  rewrite int_parse_str.
  pose proof (count_digits_le (str n)) as Hcount.
  unfold int_max_str_digits.
  destruct (Z.ltb_spec 4300 (count_digits (str n))); [lia | reflexivity].
Qed.

Lemma split_aux_leading lead s :
  all_space lead = true ->
  split_aux EmptyString (lead ++ s) = split_aux EmptyString s.
Proof.
  induction lead as [| c lead IH]; cbn; [reflexivity |].
  intros H. apply andb_prop in H as [Hc Hlead]. rewrite Hc. now apply IH.
Qed.

Lemma truthy_append lead w rest :
  is_empty w = false -> truthy (lead ++ w ++ rest) = true.
Proof.
  intros Hw. unfold truthy.
  destruct lead; [destruct w; [discriminate | reflexivity] | reflexivity].
Qed.

(** *** [str.replace] at the first occurrence *)






(** *** The range of [int / int] *)

Lemma div_exponent_le a b :
  0 < a -> 0 < b ->
  div_exponent a b <= Z.max (Z.log2 a - Z.log2 b - 52) (-1074).
Proof.
  intros Ha Hb. unfold div_exponent.
  destruct (scaled a b (Z.log2 a - Z.log2 b - 53)) as [n d].
  destruct (n / d <? 2 ^ 53); lia.
Qed.

(** Below [2^1023] the rounded quotient stays in the range of binary64. *)
Lemma div_pos_in_range a b :
  0 < a < 2 ^ 1023 -> 0 < b ->
  Z.log2 (fmant (div_pos a b)) + fexp (div_pos a b) < 1024.
Proof.
  intros [Ha0 Ha] Hb.
  pose proof (div_exponent_le a b Ha0 Hb) as He.
  assert (Hla : Z.log2 a < 1023) by (apply Z.log2_lt_pow2; lia).
  pose proof (Z.log2_nonneg b) as Hlb.
  unfold div_pos. set (e := div_exponent a b) in *.
  unfold scaled. destruct (Z.leb_spec 0 e) as [He0 | He0]; cbn [fmant fexp].
  - (* the quotient is an integer multiple of 2^e *)
    assert (HE : 0 < 2 ^ e) by (apply Z.pow_pos_nonneg; lia).
    set (m := round_half_even a (b * 2 ^ e)).
    assert (Hm : m <= a / (b * 2 ^ e) + 1)
      by (apply round_half_even_bounds; nia).
    assert (Hq : a / (b * 2 ^ e) <= a / 2 ^ e)
      by (apply Z.div_le_compat_l; nia).
    assert (Hq' : a / 2 ^ e < 2 ^ (1023 - e)).
    { apply Z.div_lt_upper_bound; [exact HE |].
      rewrite <- Z.pow_add_r by lia. now replace (e + (1023 - e)) with 1023 by lia. }
    destruct (Z.le_gt_cases m 0) as [Hm0 | Hm0].
    + rewrite (Z.log2_nonpos m Hm0). lia.
    + assert (Z.log2 m < 1024 - e); [| lia].
      apply Z.log2_lt_pow2; [lia |].
      replace (1024 - e) with (Z.succ (1023 - e)) by lia.
      rewrite Z.pow_succ_r by lia. lia.
  - set (K := 2 ^ (- e)).
    assert (HK : 0 < K) by (apply Z.pow_pos_nonneg; lia).
    set (m := round_half_even (a * K) b).
    assert (Hm : m <= a * K / b + 1)
      by (apply round_half_even_bounds; nia).
    assert (Hq : a * K / b <= a * K)
      by (apply Z.div_le_upper_bound; nia).
    assert (HaK : a * K < 2 ^ (1023 - e)).
    { replace (1023 - e) with (1023 + - e) by lia.
      rewrite Z.pow_add_r by lia. fold K. nia. }
    destruct (Z.le_gt_cases m 0) as [Hm0 | Hm0].
    + rewrite (Z.log2_nonpos m Hm0). lia.
    + assert (Z.log2 m < 1024 - e); [| lia].
      apply Z.log2_lt_pow2; [lia |].
      replace (1024 - e) with (Z.succ (1023 - e)) by lia.
      rewrite Z.pow_succ_r by lia. lia.
Qed.

Lemma true_div_in_range a b :
  Z.abs a < 2 ^ 1023 -> b <> 0 -> exists x, true_div a b = Ok x.
Proof.
  intros Ha Hb. unfold true_div.
  destruct (Z.eqb_spec b 0) as [E | _]; [contradiction |].
  destruct (Z.eqb_spec a 0) as [E | Ha0]; [eauto |].
  pose proof (div_pos_in_range (Z.abs a) (Z.abs b) ltac:(lia) ltac:(lia)) as Hr.
  destruct (Z.leb_spec 1024
              (Z.log2 (fmant (div_pos (Z.abs a) (Z.abs b)))
               + fexp (div_pos (Z.abs a) (Z.abs b)))); [lia | eauto].
Qed.

Lemma compute_total_pages_in_range total_results page_size :
  Z.abs total_results < 2 ^ 1023 -> page_size <> 0 ->
  exists total_pages, compute_total_pages total_results page_size = Ok total_pages.
Proof.
  intros HT HP. unfold compute_total_pages.
  destruct (total_results =? 0); [eauto |].
  destruct (true_div_in_range total_results page_size HT HP) as [x ->]. eauto.
Qed.

(** X1. For fewer than [2^53] results, line 80 gives the number of pages
    that holds them all and not one more. *)
Theorem total_pages_holds_all_results T P :
  0 < T < 2 ^ 53 -> 0 < P < 2 ^ 1074 ->
  exists n, compute_total_pages T P = Ok n /\ (n - 1) * P < T <= n * P.
Proof.
  intros HT HP. exists (spec_total_pages T P).
  split; [now apply compute_total_pages_exact |].
  unfold spec_total_pages.
  destruct (Z.ltb_spec 0 P); [| lia]. destruct (Z.ltb_spec 0 T); [| lia].
  cbn [andb].
  pose proof (Z.div_mod (- T) P ltac:(lia)) as Hdiv.
  pose proof (Z.mod_pos_bound (- T) P ltac:(lia)) as Hmod.
  nia.
Qed.

Section MoreFacts.

Context {W : World}.

(** *** Reading a successful run backwards *)

Lemma scrape_restaurant_details_inv u log d log' :
  scrape_restaurant_details u log = (Ok d, log') ->
  exists r, site u = Some r /\ status_code r = 200.
Proof.
  unfold scrape_restaurant_details, bind, assert, ret, raise. cbn [client_get].
  destruct (site u) as [r |]; [| discriminate].
  destruct (Z.eqb_spec (status_code r) 200) as [E | _]; [| discriminate].
  intros _. now exists r.
Qed.

Lemma scrape_details_inv results : forall log out log',
  scrape_details results log = (Ok out, log') ->
  Forall detail_ok results
  /\ out = map enriched results
  /\ log' = log ++ map url results.
Proof.
  assert (Hall : forall log out log',
             scrape_details results log = (Ok out, log') -> Forall detail_ok results).
  { induction results as [| p rest IH]; intros log out log'; [constructor |].
    cbn [scrape_details]. unfold bind at 1.
    destruct (scrape_restaurant_details (url p) log) as [[d | e] log1] eqn:Hd;
      [| discriminate].
    unfold bind at 1.
    destruct (scrape_details rest log1) as [[rest' | e] log2] eqn:Hrest;
      [| discriminate].
    intros _. constructor.
    - eapply scrape_restaurant_details_inv; eassumption.
    - eapply IH; eassumption. }
  intros log out log' H. pose proof (Hall _ _ _ H) as Hok.
  rewrite (scrape_details_ok results log Hok) in H.
  injection H as <- <-. auto.
Qed.

Lemma extend_completed_inv completed : forall results out,
  extend_completed results completed = Ok out ->
  Forall (fun u => site u <> None) completed
  /\ out = results ++ List.concat (map page_previews completed).
Proof.
  induction completed as [| u rest IH]; intros results out; cbn.
  - intros [= <-]. split; [constructor | now rewrite app_nil_r].
  - unfold page_previews at 1.
    destruct (site u) as [r |] eqn:Hu; [| discriminate].
    intros H. destruct (IH _ _ H) as [Hrest ->].
    split; [constructor; [congruence | exact Hrest] | now rewrite <- app_assoc].
Qed.

Lemma url_enriched p : url (enriched p) = url p.
Proof.
  unfold enriched. destruct (site (url p)) as [r |]; [| reflexivity].
  now destruct (restaurant_fields r) as [[? ?] ?].
Qed.

Lemma name_enriched p : name (enriched p) = name p.
Proof.
  unfold enriched. destruct (site (url p)) as [r |]; [| reflexivity].
  now destruct (restaurant_fields r) as [[? ?] ?].
Qed.

Lemma map_url_enriched l : map url (map enriched l) = map url l.
Proof. rewrite map_map. apply map_ext, url_enriched. Qed.

Lemma map_name_enriched l : map name (map enriched l) = map name l.
Proof. rewrite map_map. apply map_ext, name_enriched. Qed.

Lemma scrape_search_label_raises url0 max_pages r log e :
  site url0 = Some r -> status_code r = 200 ->
  parse_search_page r <> [] ->
  parse_total_results (get_default "" (results_count (doc r))) = Raise e ->
  scrape_search url0 max_pages log = (Raise e, log ++ [url0]).
Proof.
  intros Hsite Hstatus Hsome Htotal.
  unfold scrape_search. unfold bind at 1. cbn [client_get].
  rewrite Hsite. unfold bind at 1. rewrite Hstatus. cbn [Z.eqb Pos.eqb assert ret].
  destruct (parse_search_page r) as [| p l] eqn:Hparse; [contradiction |].
  unfold bind at 1, lift. now rewrite Htotal.
Qed.

Lemma scrape_search_division_raises url0 max_pages r log total e :
  site url0 = Some r -> status_code r = 200 ->
  parse_search_page r <> [] ->
  parse_total_results (get_default "" (results_count (doc r))) = Ok total ->
  compute_total_pages total (Z.of_nat (List.length (parse_search_page r))) = Raise e ->
  scrape_search url0 max_pages log = (Raise e, log ++ [url0]).
Proof.
  intros Hsite Hstatus Hsome Htotal Hpages.
  unfold scrape_search. unfold bind at 1. cbn [client_get].
  rewrite Hsite. unfold bind at 1. rewrite Hstatus. cbn [Z.eqb Pos.eqb assert ret].
  destruct (parse_search_page r) as [| p l] eqn:Hparse; [contradiction |].
  unfold bind at 1, lift. rewrite Htotal.
  unfold bind at 1. now rewrite Hpages.
Qed.

(** A call that returns, read backwards. *)
Lemma scrape_search_inv url0 max_pages log out log' :
  scrape_search url0 max_pages log = (Ok out, log') ->
  exists r,
    site url0 = Some r /\ status_code r = 200
    /\ ((parse_search_page r = [] /\ out = [] /\ log' = log ++ [url0])
        \/ (parse_search_page r <> []
            /\ exists total pages,
                parse_total_results (get_default "" (results_count (doc r))) = Ok total
                /\ compute_total_pages total
                     (Z.of_nat (List.length (parse_search_page r))) = Ok pages
                /\ let urls :=
                     other_page_urls (resolve_next_page url0 (next_page (doc r)))
                       (Z.of_nat (List.length (parse_search_page r)))
                       (clamp_total_pages max_pages pages) in
                   Forall (fun u => site u <> None) urls
                   /\ Forall detail_ok
                        (parse_search_page r
                         ++ List.concat (map page_previews (as_completed urls)))
                   /\ out = map enriched
                              (parse_search_page r
                               ++ List.concat (map page_previews (as_completed urls)))
                   /\ log' = log ++ [url0] ++ urls ++ map url out)).
Proof.
  intros H.
  destruct (site url0) as [r |] eqn:Hsite;
    [| unfold scrape_search, bind in H; cbn [client_get] in H;
       rewrite Hsite in H; discriminate].
  destruct (Z.eq_dec (status_code r) 200) as [Hstatus | Hstatus];
    [| rewrite (first_page_not_200 url0 max_pages r log Hsite Hstatus) in H;
       discriminate].
  exists r. split; [reflexivity | split; [exact Hstatus |]].
  destruct (parse_search_page r) as [| p l] eqn:Hparse.
  - left. rewrite (empty_first_page url0 max_pages r log Hsite Hstatus) in H.
    + injection H as <- <-. auto.
    + unfold parse_search_page in Hparse. now apply map_eq_nil in Hparse.
  - right. split; [discriminate |].
    destruct (parse_total_results (get_default "" (results_count (doc r))))
      as [total | e] eqn:Htotal.
    + destruct (compute_total_pages total
                  (Z.of_nat (List.length (parse_search_page r))))
        as [pages | e] eqn:Hpages.
      * rewrite (scrape_search_after_first_page url0 max_pages r log total pages
                   Hsite Hstatus ltac:(rewrite Hparse; discriminate) Htotal Hpages) in H.
        exists total, pages. rewrite <- Hparse.
        split; [reflexivity | split; [exact Hpages |]].
        cbv zeta. set (urls := other_page_urls _ _ _) in *.
        unfold bind at 1, scrape_other_pages in H.
        destruct (extend_completed (parse_search_page r) (as_completed urls))
          as [results | e] eqn:Hext; [| discriminate].
        apply extend_completed_inv in Hext as [Hall ->].
        apply scrape_details_inv in H as (Hok & -> & ->).
        split; [| split; [exact Hok | split; [reflexivity |]]].
        -- eapply Permutation_Forall; [apply as_completed_perm | exact Hall].
        -- rewrite map_url_enriched. now rewrite <- !app_assoc.
      * rewrite (scrape_search_division_raises url0 max_pages r log total e
                   Hsite Hstatus ltac:(rewrite Hparse; discriminate) Htotal Hpages) in H.
        discriminate.
    + rewrite (scrape_search_label_raises url0 max_pages r log e
                 Hsite Hstatus ltac:(rewrite Hparse; discriminate) Htotal) in H.
      discriminate.
Qed.

Lemma scrape_restaurant_details_log u log :
  snd (scrape_restaurant_details u log) = log ++ [u].
Proof.
  unfold scrape_restaurant_details, bind, assert, ret, raise. cbn [client_get].
  destruct (site u) as [r |]; [| reflexivity].
  now destruct (status_code r =? 200).
Qed.

Lemma scrape_details_log results : forall log,
  exists more, snd (scrape_details results log) = log ++ more.
Proof.
  induction results as [| p rest IH]; intros log.
  - exists []. cbn. now rewrite app_nil_r.
  - cbn [scrape_details]. unfold bind at 1.
    pose proof (scrape_restaurant_details_log (url p) log) as Hlog.
    destruct (scrape_restaurant_details (url p) log) as [[d | e] log1];
      cbn [snd] in Hlog; subst log1.
    + unfold bind at 1. destruct (IH (log ++ [url p])) as [more Hmore].
      destruct (scrape_details rest (log ++ [url p])) as [[rest' | e] log2];
        cbn [snd] in *; subst log2; exists (url p :: more);
        now rewrite <- app_assoc.
    + now exists [url p].
Qed.

(** A call that raises, read backwards. *)
Lemma scrape_search_raise_inv url0 max_pages log e log' :
  scrape_search url0 max_pages log = (Raise e, log') ->
  (site url0 = None /\ e = TransportError /\ log' = log ++ [url0])
  \/ (exists r, site url0 = Some r /\ status_code r <> 200
                /\ e = AssertionError "Scraper is being blocked"
                /\ log' = log ++ [url0])
  \/ (exists r, site url0 = Some r /\ status_code r = 200
                /\ parse_search_page r <> []
                /\ ((parse_total_results (get_default "" (results_count (doc r)))
                     = Raise e
                     /\ log' = log ++ [url0])
                    \/ (exists total,
                          parse_total_results (get_default "" (results_count (doc r)))
                          = Ok total
                          /\ compute_total_pages total
                               (Z.of_nat (List.length (parse_search_page r)))
                             = Raise e
                          /\ log' = log ++ [url0])
                    \/ (In e [TransportError;
                              AssertionError "Failed to retrieve restaurant page"]
                        /\ exists more, log' = log ++ [url0] ++ more))).
Proof.
  intros H.
  destruct (site url0) as [r |] eqn:Hsite.
  2:{ left. unfold scrape_search, bind in H. cbn [client_get] in H.
      rewrite Hsite in H. injection H as <- <-. auto. }
  right.
  destruct (Z.eq_dec (status_code r) 200) as [Hstatus | Hstatus].
  2:{ left. rewrite (first_page_not_200 url0 max_pages r log Hsite Hstatus) in H.
      injection H as <- <-. exists r. auto. }
  right. exists r. split; [reflexivity | split; [exact Hstatus |]].
  assert (Hsome : parse_search_page r <> []).
  { intros Hnil. unfold parse_search_page in Hnil. apply map_eq_nil in Hnil.
    rewrite (empty_first_page url0 max_pages r log Hsite Hstatus Hnil) in H.
    discriminate. }
  split; [exact Hsome |].
  destruct (parse_total_results (get_default "" (results_count (doc r))))
    as [total | e1] eqn:Htotal.
  2:{ left.
      rewrite (scrape_search_label_raises url0 max_pages r log e1
                 Hsite Hstatus Hsome Htotal) in H.
      injection H as <- <-. auto. }
  destruct (compute_total_pages total (Z.of_nat (List.length (parse_search_page r))))
    as [pages | e1] eqn:Hpages.
  2:{ right. left.
      rewrite (scrape_search_division_raises url0 max_pages r log total e1
                 Hsite Hstatus Hsome Htotal Hpages) in H.
      injection H as <- <-. eauto. }
  right. right.
  rewrite (scrape_search_after_first_page url0 max_pages r log total pages
             Hsite Hstatus Hsome Htotal Hpages) in H.
  set (urls := other_page_urls _ _ _) in *.
  unfold bind at 1, scrape_other_pages in H.
  destruct (extend_completed (parse_search_page r) (as_completed urls))
    as [results | e1] eqn:Hext.
  - destruct (scrape_details results ((log ++ [url0]) ++ urls))
      as [[out | e2] log2] eqn:Hd; [discriminate |].
    injection H as <- <-.
    pose proof (scrape_details_raises _ _ _ _ Hd) as He.
    split; [destruct He as [-> | ->]; cbn; tauto |].
    destruct (scrape_details_log results ((log ++ [url0]) ++ urls)) as [more Hmore].
    rewrite Hd in Hmore. cbn [snd] in Hmore. subst log2.
    exists (urls ++ more). now rewrite <- !app_assoc.
  - injection H as <- <-. apply extend_completed_raises in Hext. subst e1.
    split; [cbn; tauto |]. exists urls. now rewrite <- app_assoc.
Qed.

(** *** What a run requests, returns and raises *)


(** X10. A detail request that ends in a transport error stops the
    enrichment at its record: the error is raised after the requests of the
    records before it and of that record, and later records are not
    requested. *)
Theorem detail_transport_error_aborts pre p post log :
  Forall detail_ok pre ->
  site (url p) = None ->
  scrape_details (pre ++ p :: post) log
  = (Raise TransportError, log ++ map url pre ++ [url p]).
Proof.
  revert log. induction pre as [| q pre IH]; intros log Hpre Hsite.
  - cbn [List.app List.map scrape_details]. unfold bind at 1.
    unfold scrape_restaurant_details, bind at 1. cbn [client_get].
    now rewrite Hsite.
  - inversion Hpre as [| ? ? (rq & Hq & Hq200) Hrest]; subst.
    cbn [List.app].
    rewrite (scrape_details_cons q _ log _ _
               (scrape_restaurant_details_ok _ rq log Hq Hq200)).
    rewrite (IH _ Hrest Hsite). cbn [List.map List.app].
    now rewrite <- app_assoc.
Qed.

Lemma other_page_urls_length_le next_page_url page_size total_pages :
  (List.length (other_page_urls next_page_url page_size total_pages)
   <= Z.to_nat (total_pages - 1))%nat.
Proof.
  unfold other_page_urls.
  destruct next_page_url as [next |]; [| cbn; lia].
  destruct (truthy next); [| cbn; lia].
  now rewrite length_map, range_length.
Qed.

Lemma clamp_min m total_pages :
  0 < m -> clamp_total_pages (Some m) total_pages = Z.min m total_pages.
Proof.
  intros Hm. unfold clamp_total_pages.
  destruct (Z.eqb_spec m 0) as [E | _]; [lia |]. cbn [negb andb].
  destruct (Z.ltb_spec m total_pages); lia.
Qed.

(** X3. A positive [max_pages] turns the number of pages into the smaller
    of the two, and the plan then has fewer than [max_pages] URLs. A
    negative [max_pages] below the number of pages leaves no URL in the
    plan. *)
Theorem max_pages_bounds_plan m next_page_url page_size total_pages :
  (0 < m ->
   clamp_total_pages (Some m) total_pages = Z.min m total_pages
   /\ (List.length (other_page_urls next_page_url page_size
                      (clamp_total_pages (Some m) total_pages))
       < Z.to_nat m)%nat)
  /\ (m < 0 -> m < total_pages ->
      other_page_urls next_page_url page_size
        (clamp_total_pages (Some m) total_pages) = []).
Proof.
  split.
  - intros Hm. split; [now apply clamp_min |].
    pose proof (other_page_urls_length_le next_page_url page_size
                  (clamp_total_pages (Some m) total_pages)) as Hle.
    rewrite (clamp_min m total_pages Hm) in *. lia.
  - intros Hm Hlt. apply other_page_urls_empty.
    rewrite clamp_nonzero by lia. lia.
Qed.

(** X12. When [scrape_search] returns, it has requested the search URL,
    then the planned pages, then the detail page of every returned record,
    once each and in the order of the output. The records are the enriched
    previews of the first page and of every planned page, up to the order
    of the pages; with a positive [max_pages] fewer than [max_pages] pages
    were planned. *)
Theorem requests_and_records_of_a_run url0 max_pages log out log' :
  scrape_search url0 max_pages log = (Ok out, log') ->
  exists r pages,
    site url0 = Some r
    /\ log' = log ++ url0 :: pages ++ map url out
    /\ Permutation out
         (map enriched
            (parse_search_page r ++ List.concat (map page_previews pages)))
    /\ (forall m, max_pages = Some m -> 0 < m ->
                  (List.length pages < Z.to_nat m)%nat).
Proof.
  intros H. apply scrape_search_inv in H as (r & Hsite & _ & H).
  exists r.
  destruct H as [(Hnil & -> & ->) | (_ & total & pages & _ & _ & H)].
  - exists []. rewrite Hnil. cbn. repeat split; auto. intros; lia.
  - cbv zeta in H. set (urls := other_page_urls _ _ _) in *.
    destruct H as (_ & _ & -> & ->). exists urls.
    split; [exact Hsite | split; [| split]].
    + reflexivity.
    + apply Permutation_map, Permutation_app_head, concat_perm, Permutation_map,
        as_completed_perm.
    + intros m -> Hm. unfold urls.
      pose proof (other_page_urls_length_le
                    (resolve_next_page url0 (next_page (doc r)))
                    (Z.of_nat (List.length (parse_search_page r)))
                    (clamp_total_pages (Some m) pages)) as Hle.
      rewrite (clamp_min m pages Hm) in *. lia.
Qed.

(** X11. The output starts with the listings of the first page, in page
    order: no preview of the first page is lost or moved, and the output is
    empty only when the first page has no listing. *)
Theorem first_page_listings_first url0 max_pages log out log' r :
  scrape_search url0 max_pages log = (Ok out, log') ->
  site url0 = Some r ->
  let n := List.length (listings (doc r)) in
  (n <= List.length out)%nat
  /\ map url (firstn n out) = map url (parse_search_page r)
  /\ map name (firstn n out) = map name (parse_search_page r)
  /\ (out = [] <-> listings (doc r) = []).
Proof.
  intros H Hsite n.
  apply scrape_search_inv in H as (r' & Hsite' & _ & H).
  rewrite Hsite in Hsite'. injection Hsite' as <-.
  assert (Hn : n = List.length (parse_search_page r))
    by (unfold n, parse_search_page; now rewrite length_map).
  destruct H as [(Hnil & -> & _) | (Hsome & total & pages & _ & _ & H)].
  - rewrite Hnil in *. cbn in Hn. rewrite Hn. cbn.
    repeat split; auto. intros _. now apply length_zero_iff_nil.
  - cbv zeta in H. destruct H as (_ & _ & -> & _).
    set (others := List.concat _).
    assert (Hfirst : firstn n (map enriched (parse_search_page r ++ others))
                     = map enriched (parse_search_page r)).
    { rewrite firstn_map, Hn, firstn_app, firstn_all, Nat.sub_diag.
      cbn. now rewrite app_nil_r. }
    rewrite Hfirst, map_url_enriched, map_name_enriched.
    repeat split; auto.
    + rewrite length_map, length_app. lia.
    + intros Hout. apply map_eq_nil, app_eq_nil in Hout as [Hout _]. contradiction.
    + intros Hnone. exfalso. apply Hsome. unfold parse_search_page.
      now rewrite Hnone.
Qed.

Lemma crawled_previews_parsed r pages p :
  In p (parse_search_page r ++ List.concat (map page_previews pages)) ->
  exists base box, p = parse_listing base box.
Proof.
  assert (Hparse : forall r0 q, In q (parse_search_page r0) ->
                                exists base box, q = parse_listing base box).
  { intros r0 q Hq. unfold parse_search_page in Hq.
    apply in_map_iff in Hq as (b & <- & _). eauto. }
  intros Hin. apply in_app_or in Hin as [Hin | Hin]; [eauto |].
  apply in_concat in Hin as (l & Hl & Hin).
  apply in_map_iff in Hl as (u & <- & _).
  unfold page_previews in Hin. destruct (site u) as [ru |]; [eauto | destruct Hin].
Qed.

(** Every record that [scrape_search] returns is a listing box of some
    crawled page with the fields of its own detail page. *)
Lemma returned_records url0 max_pages log out log' q :
  scrape_search url0 max_pages log = (Ok out, log') ->
  In q out ->
  exists base box r,
    site (url (parse_listing base box)) = Some r
    /\ status_code r = 200
    /\ q = set_details (parse_listing base box) (restaurant_fields r).
Proof.
  intros H Hq. apply scrape_search_inv in H as (r & _ & _ & H).
  destruct H as [(_ & -> & _) | (_ & total & pages & _ & _ & H)]; [destruct Hq |].
  cbv zeta in H. destruct H as (_ & Hok & -> & _).
  apply in_map_iff in Hq as (p & <- & Hp).
  rewrite Forall_forall in Hok. destruct (Hok p Hp) as (rp & Hrp & Hstatus).
  destruct (crawled_previews_parsed _ _ _ Hp) as (base & box & ->).
  exists base, box, rp. unfold enriched. now rewrite Hrp.
Qed.

(** X8. No [name], [numberOfReviews] or [address] that [scrape_search]
    returns starts or ends with white space. *)
Theorem returned_text_is_trimmed url0 max_pages log out log' :
  scrape_search url0 max_pages log = (Ok out, log') ->
  Forall (fun q => trimmed (name q) = true
                   /\ trimmed (numberOfReviews q) = true
                   /\ trimmed (address q) = true) out.
Proof.
  intros H. apply Forall_forall. intros q Hq.
  destruct (returned_records _ _ _ _ _ _ H Hq) as (base & box & r & _ & _ & ->).
  cbn. repeat split; apply strip_trimmed.
Qed.

(** X7. A [rating] that [scrape_search] returns is [None] or a string of
    one decimal digit at least: the empty placeholder of
    [parse_search_page] never comes back. *)
Theorem returned_rating_is_digits_or_None url0 max_pages log out log' :
  scrape_search url0 max_pages log = (Ok out, log') ->
  Forall (fun q => match rating q with
                   | Some d => is_empty d = false /\ all_digits d = true
                   | None => True
                   end) out.
Proof.
  intros H. apply Forall_forall. intros q Hq.
  destruct (returned_records _ _ _ _ _ _ H Hq) as (base & box & r & _ & _ & ->).
  cbn. destruct (re_first_bubble (bubble_classes (doc r))) as [d |] eqn:Hd; [| exact I].
  eapply re_first_bubble_digits; eassumption.
Qed.

Lemma page_size_nonzero r :
  parse_search_page r <> [] -> Z.of_nat (List.length (parse_search_page r)) <> 0.
Proof. destruct (parse_search_page r); [contradiction | cbn [List.length]; lia]. Qed.

(** X13. The assertion error "Scraper is being blocked" is raised only for
    a first page that answered with a status other than 200, right after
    that one request. *)
Theorem blocked_only_by_first_page url0 max_pages log log' :
  scrape_search url0 max_pages log
  = (Raise (AssertionError "Scraper is being blocked"), log') ->
  exists r, site url0 = Some r /\ status_code r <> 200 /\ log' = log ++ [url0].
Proof.
  intros H. apply scrape_search_raise_inv in H
    as [(_ & He & _)
       | [(r & Hsite & Hstatus & _ & Hlog)
         | (r & _ & _ & Hsome & [(He & _) | [(total & _ & He & _) | (He & _)]])]].
  - discriminate.
  - eauto.
  - apply parse_total_results_raises in He. intuition discriminate.
  - apply compute_total_pages_raises in He; [discriminate |].
    now apply page_size_nonzero.
  - cbn in He. intuition discriminate.
Qed.

(** X14. [IndexError] and [OverflowError] leave [scrape_search] only from
    the pagination of a first page that has listings, before any other
    page is requested. *)
Theorem pagination_errors_before_crawl url0 max_pages log e log' :
  scrape_search url0 max_pages log = (Raise e, log') ->
  In e [IndexError; OverflowError] ->
  log' = log ++ [url0]
  /\ exists r, site url0 = Some r /\ status_code r = 200 /\ listings (doc r) <> [].
Proof.
  intros H He. apply scrape_search_raise_inv in H
    as [(_ & -> & _)
       | [(r & _ & _ & -> & _)
         | (r & Hsite & Hstatus & Hsome
            & [(_ & Hlog) | [(total & _ & _ & Hlog) | (He' & _)]])]].
  - cbn in He. intuition discriminate.
  - cbn in He. intuition discriminate.
  - split; [exact Hlog |]. exists r. repeat split; auto.
    intros Hnone. apply Hsome. unfold parse_search_page. now rewrite Hnone.
  - split; [exact Hlog |]. exists r. repeat split; auto.
    intros Hnone. apply Hsome. unfold parse_search_page. now rewrite Hnone.
  - exfalso. cbn in He, He'. intuition (subst; discriminate).
Qed.

(** X2. [scrape_search] raises [OverflowError] only when the results label
    counts [2^1023] results or more. *)
Theorem overflow_only_beyond_binary64 url0 max_pages log log' :
  scrape_search url0 max_pages log = (Raise OverflowError, log') ->
  exists r total,
    site url0 = Some r
    /\ parse_total_results (get_default "" (results_count (doc r))) = Ok total
    /\ 2 ^ 1023 <= Z.abs total.
Proof.
  intros H. apply scrape_search_raise_inv in H
    as [(_ & He & _)
       | [(r & _ & _ & He & _)
         | (r & Hsite & _ & Hsome
            & [(He & _) | [(total & Htotal & He & _) | (He & _)]])]].
  - discriminate.
  - discriminate.
  - apply parse_total_results_raises in He. intuition discriminate.
  - exists r, total. repeat split; auto.
    destruct (Z.lt_ge_cases (Z.abs total) (2 ^ 1023)) as [Hlt | Hge]; [| exact Hge].
    destruct (compute_total_pages_in_range total _ Hlt (page_size_nonzero r Hsome))
      as [pages Hpages].
    rewrite Hpages in He. discriminate.
  - cbn in He. intuition discriminate.
Qed.

(** X4. With two pages or more, the first URL of the plan is the
    next-page URL itself. *)
Theorem page_two_is_next_page next page_size total_pages :
  truthy next = true -> 2 <= total_pages ->
  hd_error (other_page_urls (Some next) page_size total_pages) = Some next.
Proof.
  intros Hnext Htp. unfold other_page_urls. rewrite Hnext.
  unfold range. destruct (Z.to_nat (total_pages - 1)) as [| k] eqn:Hk; [lia |].
  cbn [seq List.map hd_error]. f_equal.
  replace (page_size * (1 + Z.of_nat 0)) with page_size by lia.
  now apply replace_same.
Qed.

(** X5. When the next-page URL does not contain [oa<page_size>], every URL
    of the plan is the next-page URL: the same page is requested for each
    remaining page. *)
Theorem plan_repeats_without_token next page_size total_pages :
  truthy next = true ->
  absent ("oa" ++ str page_size) next = true ->
  other_page_urls (Some next) page_size total_pages
  = repeat next (Z.to_nat (total_pages - 1)).
Proof.
  intros Hnext Habs. unfold other_page_urls. rewrite Hnext.
  unfold range. generalize (Z.to_nat (total_pages - 1)) as k. intros k.
  generalize 0%nat as start.
  induction k as [| k IH]; intros start; cbn [seq List.map repeat]; [reflexivity |].
  rewrite IH. f_equal. now apply replace_absent.
Qed.


End MoreFacts.

(** X6. When the first word of the results label, without its commas, is
    the decimal writing of [n] and has 4300 characters at most,
    [total_results] is [n], whatever white space precedes the word and
    whatever follows it. *)
Theorem label_with_separators lead w rest n :
  all_space lead = true ->
  is_empty w = false -> no_space w = true ->
  rest = EmptyString \/ leading_space rest = true ->
  drop_commas w = str n ->
  (String.length (drop_commas w) <= 4300)%nat ->
  parse_total_results (lead ++ w ++ rest) = Ok n.
Proof.
  intros Hlead He Hw Hrest Hn Hlen. unfold parse_total_results.
  rewrite (truthy_append lead w rest He).
  unfold split. rewrite (split_aux_leading lead _ Hlead).
  fold (split (w ++ rest)).
  rewrite (first_word w rest Hw He Hrest), replace_commas.
  rewrite Hn in *. now apply int_str.
Qed.

(** *** On the mock site *)

Lemma total_pages_holds_all_results_witness :
  exists n, compute_total_pages 95 30 = Ok n /\ (n - 1) * 30 < 95 <= n * 30.
Proof. apply (total_pages_holds_all_results 95 30); lia. Defined.

Lemma overflow_only_beyond_binary64_witness :
  exists r total,
    site (World := Mock.world) "http://t/huge" = Some r
    /\ parse_total_results (get_default "" (results_count (doc r))) = Ok total
    /\ 2 ^ 1023 <= Z.abs total.
Proof.
  apply (overflow_only_beyond_binary64 (W := Mock.world)
           "http://t/huge" (Some 1) [] ["http://t/huge"%string]).
  vm_compute. reflexivity.
Defined.

Lemma max_pages_bounds_plan_witness :
  (clamp_total_pages (Some 3) 40 = Z.min 3 40
   /\ (List.length (other_page_urls (Some "http://t/R-oa30-x.html"%string) 30%Z
                      (clamp_total_pages (Some 3%Z) 40%Z)) < Z.to_nat 3%Z)%nat)
  /\ other_page_urls (Some "http://t/R-oa30-x.html"%string) 30
       (clamp_total_pages (Some (-1)) 40) = [].
Proof.
  destruct (max_pages_bounds_plan 3 (Some "http://t/R-oa30-x.html"%string) 30 40)
    as [Hpos _].
  destruct (max_pages_bounds_plan (-1) (Some "http://t/R-oa30-x.html"%string) 30 40)
    as [_ Hneg].
  split; [apply Hpos; lia | apply Hneg; lia].
Defined.

Lemma page_two_is_next_page_witness :
  hd_error (other_page_urls (Some "http://t/R-oa30-x.html"%string) 30 4)
  = Some "http://t/R-oa30-x.html"%string.
Proof.
  apply (page_two_is_next_page "http://t/R-oa30-x.html" 30 4); [reflexivity | lia].
Defined.

Lemma plan_repeats_without_token_witness :
  other_page_urls (Some "http://t/R-oa30-x.html"%string) 35 4
  = repeat "http://t/R-oa30-x.html"%string 3.
Proof.
  apply (plan_repeats_without_token "http://t/R-oa30-x.html" 35 4); reflexivity.
Defined.

Lemma label_with_separators_witness :
  parse_total_results " 1,234 results found" = Ok 1234.
Proof.
  apply (label_with_separators " " "1,234" " results found" 1234).
  - reflexivity.
  - reflexivity.
  - reflexivity.
  - right. reflexivity.
  - reflexivity.
  - vm_compute. lia.
Defined.

Lemma returned_rating_is_digits_or_None_witness :
  exists out log',
    Mock.scrape_search "http://t/ab" None [] = (Ok out, log')
    /\ Forall (fun q => match rating q with
                        | Some d => is_empty d = false /\ all_digits d = true
                        | None => True
                        end) out.
Proof.
  eexists. eexists. split; [vm_compute; reflexivity |].
  eapply (returned_rating_is_digits_or_None (W := Mock.world)
            "http://t/ab" None []).
  vm_compute. reflexivity.
Defined.

Lemma returned_text_is_trimmed_witness :
  exists out log',
    Mock.scrape_search "http://t/ab" None [] = (Ok out, log')
    /\ Forall (fun q => trimmed (name q) = true
                        /\ trimmed (numberOfReviews q) = true
                        /\ trimmed (address q) = true) out.
Proof.
  eexists. eexists. split; [vm_compute; reflexivity |].
  eapply (returned_text_is_trimmed (W := Mock.world) "http://t/ab" None []).
  vm_compute. reflexivity.
Defined.


Lemma detail_transport_error_aborts_witness :
  Mock.scrape_details
    [Mock.preview "http://t/a" "A"; Mock.preview "http://t/gone" "G";
     Mock.preview "http://t/d" "D"] []
  = (Raise TransportError, ["http://t/a"; "http://t/gone"]%string).
Proof.
  apply (detail_transport_error_aborts (W := Mock.world)
           [Mock.preview "http://t/a" "A"] (Mock.preview "http://t/gone" "G")
           [Mock.preview "http://t/d" "D"] []).
  - repeat constructor. eexists. split; reflexivity.
  - reflexivity.
Defined.

Lemma first_page_listings_first_witness :
  exists out log',
    Mock.scrape_search "http://t/p" None [] = (Ok out, log')
    /\ (1 <= List.length out)%nat
    /\ map url (firstn 1 out) = ["http://t/a"%string]
    /\ map name (firstn 1 out) = ["A"%string]
    /\ (out = [] <-> [Mock.box "A" "http://t/a"] = []).
Proof.
  eexists. eexists. split; [vm_compute; reflexivity |].
  eapply (first_page_listings_first (W := Mock.world) "http://t/p" None []
            _ _
            {| status_code := 200; response_url := "http://t/p";
               doc := Mock.search_document [Mock.box "A" "http://t/a"]
                        (Some "3 results"%string)
                        (Some "http://t/p-oa1"%string) |});
    vm_compute; reflexivity.
Defined.

Lemma requests_and_records_of_a_run_witness :
  exists out r pages,
    site (World := Mock.world) "http://t/p" = Some r
    /\ ["http://t/p"; "http://t/p-oa1"; "http://t/a"; "http://t/d"]%string
       = [] ++ "http://t/p"%string :: pages ++ map url out
    /\ Permutation out
         (map (enriched (W := Mock.world))
            (parse_search_page (W := Mock.world) r
             ++ List.concat (map (page_previews (W := Mock.world)) pages)))
    /\ (forall m, Some 2 = Some m -> 0 < m ->
                  (List.length pages < Z.to_nat m)%nat).
Proof.
  eexists.
  eapply (requests_and_records_of_a_run (W := Mock.world)
            "http://t/p" (Some 2) []).
  vm_compute. reflexivity.
Defined.

Lemma blocked_only_by_first_page_witness :
  exists r,
    site (World := Mock.world) "http://t/blocked" = Some r
    /\ status_code r <> 200
    /\ ["http://t/blocked"%string] = [] ++ ["http://t/blocked"%string].
Proof.
  apply (blocked_only_by_first_page (W := Mock.world) "http://t/blocked" None []).
  vm_compute. reflexivity.
Defined.

Lemma pagination_errors_before_crawl_witness :
  ["http://t/huge"%string] = [] ++ ["http://t/huge"%string]
  /\ exists r,
       site (World := Mock.world) "http://t/huge" = Some r
       /\ status_code r = 200 /\ listings (doc r) <> [].
Proof.
  apply (pagination_errors_before_crawl (W := Mock.world)
           "http://t/huge" (Some 1) [] OverflowError).
  - vm_compute. reflexivity.
  - cbn. tauto.
Defined.


